(** * DVID import drivers: the Raveler tile importer and the VoxelProof
    converter

  The two Go programs of the repository are embedded as functions of a
  small effect monad: every print, log line, process launch and sleep is
  an event of a trace, and a run ends with [Ret], [Exit], [Panic] or,
  for a loop that was given too little fuel, [OutOfFuel].  Integers of
  type [int32] are integers of [Z] with the wrap-around written out. *)

From Stdlib Require Import ZArith String Ascii List Lia Bool DecimalString.
From Stdlib Require DecimalZ DecimalPos.
Import ListNotations.

Open Scope Z_scope.
Open Scope string_scope.

(** ** The parts of the Go runtime and library the drivers use *)

Module Go.

(** *** int32 and int arithmetic *)

Definition wrap (bits : Z) (z : Z) : Z :=
  (z + 2 ^ (bits - 1)) mod 2 ^ bits - 2 ^ (bits - 1).

Definition wrap32 : Z -> Z := wrap 32.
Definition wrap64 : Z -> Z := wrap 64.

Definition int32 (z : Z) : Prop := - 2 ^ 31 <= z < 2 ^ 31.

Definition MaxInt32 : Z := 2 ^ 31 - 1.

Definition add32 (a b : Z) : Z := wrap32 (a + b).
Definition sub32 (a b : Z) : Z := wrap32 (a - b).
Definition mul32 (a b : Z) : Z := wrap32 (a * b).

(** [a / b] on int32 for [b] other than zero: truncated division. *)
Definition quot32 (a b : Z) : Z := wrap32 (Z.quot a b).

(** [i++] *)
Definition inc32 (i : Z) : Z := add32 i 1.

(** [int], taken as 64 bits wide. *)
Definition add64 (a b : Z) : Z := wrap64 (a + b).

(** *** fmt verbs *)

(** [%d] *)
Definition fmt_d (z : Z) : string := NilZero.string_of_int (Z.to_int z).

Fixpoint zeros (n : nat) : string :=
  match n with
  | O => ""
  | S n' => String "0" (zeros n')
  end.

Definition pad_zeros (width : nat) (digits : string) : string :=
  zeros (width - String.length digits) ++ digits.

(** [%03d]: the width counts the sign, the zeros go between the sign and
    the digits. *)
Definition fmt_03d (z : Z) : string :=
  if (z <? 0)%Z then "-" ++ pad_zeros 2 (fmt_d (- z))
  else pad_zeros 3 (fmt_d z).

(** strconv.Itoa *)
Definition Itoa (z : Z) : string := fmt_d z.

(** Operands of the fmt functions. *)
Inductive value :=
| VInt (z : Z)
| VStr (s : string)
| VPoint (p : list Z).

Definition bad_verb : string := "%!(BADVERB)".

(** fmt.Sprintf for the verbs the drivers format strings with: [%d],
    [%03d] and [%s] of a string.  An operand that is missing or of
    another kind gives [bad_verb]; no call of the drivers does. *)
Fixpoint Sprintf (format : string) (args : list value) : string :=
  match format with
  | EmptyString => ""
  | String "%" (String "d" rest) =>
      match args with
      | VInt z :: args' => fmt_d z ++ Sprintf rest args'
      | _ => bad_verb
      end
  | String "%" (String "s" rest) =>
      match args with
      | VStr s :: args' => s ++ Sprintf rest args'
      | _ => bad_verb
      end
  | String "%" (String "0" (String "3" (String "d" rest))) =>
      match args with
      | VInt z :: args' => fmt_03d z ++ Sprintf rest args'
      | _ => bad_verb
      end
  | String c rest => String c (Sprintf rest args)
  end.

(** *** strings.Join *)

Fixpoint strings_Join (elems : list string) (sep : string) : string :=
  match elems with
  | [] => ""
  | [e] => e
  | e :: rest => e ++ sep ++ strings_Join rest sep
  end.

(** *** path/filepath, with "/" as the separator *)

Definition Separator : ascii := "/"%char.

(** The elements of a path: the pieces between separators. *)
Fixpoint elements (path : string) : list string :=
  match path with
  | EmptyString => [""]
  | String c rest =>
      if Ascii.eqb c Separator then "" :: elements rest
      else match elements rest with
           | e :: es => String c e :: es
           | [] => [String c ""]
           end
  end.

(** One element read by Clean; [out] holds the elements written so far,
    last one first. *)
Definition clean_element (rooted : bool) (out : list string) (e : string)
  : list string :=
  if String.eqb e "" then out
  else if String.eqb e "." then out
  else if String.eqb e ".." then
    match out with
    | top :: below =>
        if String.eqb top ".." then ".." :: out else below
    | [] => if rooted then [] else [".."]
    end
  else e :: out.

Definition Clean (path : string) : string :=
  match path with
  | EmptyString => "."
  | String c _ =>
      let rooted := Ascii.eqb c Separator in
      let out := rev (fold_left (clean_element rooted) (elements path) []) in
      let body := strings_Join out "/" in
      if rooted then "/" ++ body
      else if String.eqb body "" then "." else body
  end.

(** filepath.Join: leading empty elements are dropped, the rest is joined
    and cleaned. *)
Fixpoint Join (elem : list string) : string :=
  match elem with
  | [] => ""
  | e :: rest =>
      if String.eqb e "" then Join rest
      else Clean (strings_Join elem "/")
  end.

(** *** fmt.Sscanf, for formats made of literal text, spaces and [%s] *)

Definition isSpace (c : ascii) : bool :=
  let n := nat_of_ascii c in
  ((9 <=? n)%nat && (n <=? 13)%nat) || (n =? 32)%nat.

Definition newline : ascii := ascii_of_nat 10.

(** Spaces of the input that a space of the format, or a verb, skips;
    a newline stops the scan of a single line. *)
Fixpoint skip_spaces (input : string) : option string :=
  match input with
  | EmptyString => Some ""
  | String c rest =>
      if Ascii.eqb c newline then None
      else if isSpace c then skip_spaces rest
      else Some input
  end.

(** The next word and what follows it. *)
Fixpoint token (input : string) : string * string :=
  match input with
  | EmptyString => ("", "")
  | String c rest =>
      if isSpace c then ("", input)
      else let (w, r) := token rest in (String c w, r)
  end.

(** [in_space] tells that the character of the format just read was a
    space: a run of spaces of the format counts once. *)
Fixpoint doScanf (in_space : bool) (format input : string)
  : option (list string) :=
  match format with
  | EmptyString => Some []
  | String f format' =>
      if isSpace f then
        if in_space then doScanf true format' input
        else
          match input with
          | EmptyString => doScanf true format' input
          | String c _ =>
              if isSpace c then
                match skip_spaces input with
                | Some input' => doScanf true format' input'
                | None => None
                end
              else None
          end
      else if Ascii.eqb f "%" then
        match format' with
        | String "s" format'' =>
            match skip_spaces input with
            | Some (String c rest) =>
                let (word, input') := token (String c rest) in
                match doScanf false format'' input' with
                | Some words => Some (word :: words)
                | None => None
                end
            | _ => None
            end
        | _ => None
        end
      else
        match input with
        | String c input' =>
            if Ascii.eqb f c then doScanf false format' input' else None
        | EmptyString => None
        end
  end.

(** [n, err = fmt.Sscanf(line, format, &s)] with [err == nil && n == 1]. *)
Definition Sscanf1 (line format : string) : option string :=
  match doScanf false format line with
  | Some [word] => Some word
  | _ => None
  end.

End Go.


(** ** Effects: traces of what a driver does to the outside *)

Module Eff.
Import Go.
Local Open Scope list_scope.

Definition error := string.

Inductive result (A : Type) :=
| Ok (a : A)
| Err (e : error).
Arguments Ok {A} a.
Arguments Err {A} e.

Inductive event :=
| Printf (format : string) (args : list value)   (* fmt.Printf *)
| Println (args : list value)                    (* fmt.Println *)
| Log (args : list value)                        (* the line of log.Fatal *)
| Logln (args : list value)                      (* the line of log.Fatalln *)
| Logf (format : string) (args : list value)     (* the line of log.Fatalf *)
| StdoutPipe (argv : list string) (err : option error)
| Start (argv : list string) (err : option error)    (* cmd.Start *)
| Output (argv : list string) (out : string) (err : option error)
                                                     (* cmd.Output *)
| Sleep (seconds : Z)
| Notify.                         (* signal.Notify(ctrl_c, os.Interrupt) *)

(** What lies outside the drivers: the parsers of the dvid library and
    the processes a driver launches.  [Output_of n argv] is what the
    [n]-th call of cmd.Output of the run gives for the command [argv];
    [stdout_lines argv] lists what successive calls of ReadLine return on
    the standard output of the started command [argv], before the read
    error that ends the stream. *)
Record Env := {
  Point2d : string -> result (Z * Z);
  Point3d : string -> result (Z * Z * Z);
  VoxelCoord : string -> result (Z * Z * Z);
  StdoutPipe_err : list string -> option error;
  Start_err : list string -> option error;
  stdout_lines : list string -> list string;
  Output_of : nat -> list string -> string * option error
}.

Inductive outcome (A : Type) :=
| Ret (a : A)            (* the computation went through *)
| Exit (code : Z)        (* os.Exit: deferred calls do not run *)
| Panic (msg : string)   (* a run-time panic: deferred calls run, then the
                            process ends with the message and status 2 *)
| OutOfFuel.             (* a loop of the model was cut short *)
Arguments Ret {A} a.
Arguments Exit {A} code.
Arguments Panic {A} msg.
Arguments OutOfFuel {A}.

(** A computation reads the environment and the number of cmd.Output
    calls made so far; it gives an outcome, the events it emitted and the
    new number of calls. *)
Definition M (A : Type) : Type := Env -> nat -> outcome A * list event * nat.

Definition ret {A} (a : A) : M A := fun _ n => (Ret a, [], n).

Definition bind {A B} (m : M A) (k : A -> M B) : M B :=
  fun env n =>
    match m env n with
    | (Ret a, t, n') =>
        match k a env n' with
        | (r, t', n'') => (r, t ++ t', n'')
        end
    | (Exit code, t, n') => (Exit code, t, n')
    | (Panic msg, t, n') => (Panic msg, t, n')
    | (OutOfFuel, t, n') => (OutOfFuel, t, n')
    end.

Declare Scope go_scope.
Delimit Scope go_scope with go.
Notation "x <- m ;; k" := (bind m (fun x => k))
  (at level 61, m at next level, right associativity) : go_scope.
Notation "m ;; k" := (bind m (fun _ => k))
  (at level 61, right associativity) : go_scope.
Open Scope go_scope.

Definition emit (e : event) : M unit := fun _ n => (Ret tt, [e], n).
Definition asks {A} (f : Env -> A) : M A := fun env n => (Ret (f env), [], n).
Definition exit {A} (code : Z) : M A := fun _ n => (Exit code, [], n).
Definition panic {A} (msg : string) : M A := fun _ n => (Panic msg, [], n).
Definition out_of_fuel {A} : M A := fun _ n => (OutOfFuel, [], n).

Definition when (b : bool) (m : M unit) : M unit := if b then m else ret tt.

(** log.Fatal and its variants write a line and call os.Exit(1). *)
Definition log_Fatal {A} (args : list value) : M A := emit (Log args) ;; exit 1.
Definition log_Fatalln {A} (args : list value) : M A :=
  emit (Logln args) ;; exit 1.
Definition log_Fatalf {A} (format : string) (args : list value) : M A :=
  emit (Logf format args) ;; exit 1.

(** [args[i]] *)
Definition index (args : list string) (i : nat) : M string :=
  match nth_error args i with
  | Some a => ret a
  | None =>
      panic ("runtime error: index out of range [" ++ fmt_d (Z.of_nat i)
             ++ "] with length " ++ fmt_d (Z.of_nat (length args)))%string
  end.

(** [a / b] with a divisor that the program computes. *)
Definition div32 (a b : Z) : M Z :=
  if (b =? 0)%Z then panic "runtime error: integer divide by zero"
  else ret (quot32 a b).

(** [for i := first; cond(i); i++ { s = body(i, s) }] on an int32 [i]. *)
Fixpoint for_ {S : Type} (fuel : nat) (cond : Z -> bool) (i : Z)
    (body : Z -> S -> M S) (s : S) : M S :=
  match fuel with
  | O => out_of_fuel
  | Datatypes.S fuel' =>
      if cond i then
        s' <- body i s ;; for_ fuel' cond (inc32 i) body s'
      else ret s
  end.

(** [defer d] followed by [body]: [d] runs when [body] returns or
    panics, and does not run when [body] leaves through os.Exit. *)
Definition defer {A B} (d : M B) (body : M A) : M A :=
  fun env n =>
    match body env n with
    | (Ret a, t, n') =>
        match d env n' with
        | (Ret _, t', n'') => (Ret a, t ++ t', n'')
        | (Exit code, t', n'') => (Exit code, t ++ t', n'')
        | (Panic msg, t', n'') => (Panic msg, t ++ t', n'')
        | (OutOfFuel, t', n'') => (OutOfFuel, t ++ t', n'')
        end
    | (Panic msg, t, n') =>
        match d env n' with
        | (Ret _, t', n'') => (Panic msg, t ++ t', n'')
        | (Exit code, t', n'') => (Exit code, t ++ t', n'')
        | (Panic msg', t', n'') => (Panic msg', t ++ t', n'')
        | (OutOfFuel, t', n'') => (OutOfFuel, t ++ t', n'')
        end
    | (Exit code, t, n') => (Exit code, t, n')
    | (OutOfFuel, t, n') => (OutOfFuel, t, n')
    end.

Definition nl : string := String (ascii_of_nat 10) "".
Definition dq : string := String (ascii_of_nat 34) "".

(** runCommand, the same in both programs: the command runs to its end,
    its output is printed when there is some, its error is returned. *)
Definition runCommand (args : list string) : M (option error) :=
  fun env n =>
    let (out, err) := Output_of env n args in
    (Ret err,
     Output args out err
       :: (if (0 <? String.length out)%nat then [Println [VStr out]] else []),
     S n).

(** The events and the outcome of a whole run. *)
Definition run {A} (m : M A) (env : Env) : outcome A * list event :=
  match m env O with
  | (r, t, _) => (r, t)
  end.

End Eff.

(** ** raveler/main.go: DVID data from a directory of Raveler tiles *)

Module Raveler.
Import Go Eff.

(** The command-line flags, as flag.Parse leaves them. *)
Record Flags := {
  loadSuperpixels : bool;
  loadGrayscale : bool;
  showHelp : bool
}.

Definition tileSize : Z := 1024.

Definition helpMessage : string := "
%s adds a DVID data set from a set of images.

Usage: %s [options] <uuid> <dataset name> <tiles dir> <offset x,y,z> <size x,y,z>

  -s, -superpixels  (flag)   Load only superpixel tiles
  -g, -grayscale    (flag)   Load only grayscale tiles
  -h, -help         (flag)   Show help message
".

Definition usage (programName : string) : M unit :=
  emit (Printf helpMessage [VStr programName; VStr programName]).

(** TileFilename returns the path to a given tile relative to tiles
    directory. *)
Definition tileFilename (row col slice : Z) (superpixel : bool) : string :=
  let typeDir := if superpixel then "s" else "g" in
  if (slice >=? 1000)%Z then
    let sliceDir := mul32 (quot32 slice 1000) 1000 in
    Sprintf "%d/0/%d/%d/%s/%d/%d.png"
      [VInt tileSize; VInt row; VInt col; VStr typeDir; VInt sliceDir;
       VInt slice]
  else
    Sprintf "%d/0/%d/%d/%s/%03d.png"
      [VInt tileSize; VInt row; VInt col; VStr typeDir; VInt slice].

(** Modelled from the spec: [AddSize] is a method of the dvid library,
    which is not among the sources; the end point of the range is the
    offset plus the size on each axis, here in int32 arithmetic. *)
Definition AddSize (offset size : Z * Z * Z) : Z * Z * Z :=
  let '(ox, oy, oz) := offset in
  let '(sx, sy, sz) := size in
  (add32 ox sx, add32 oy sy, add32 oz sz).

Definition point (p : Z * Z * Z) : value :=
  let '(x, y, z) := p in VPoint [x; y; z].

(** The first and the last tile index on the two horizontal axes:
    [(startTileX, startTileY, endTileX, endTileY)]. *)
Definition tileBounds (offset size : Z * Z * Z) : Z * Z * Z * Z :=
  let endVoxel := AddSize offset size in
  let '(ox, oy, _) := offset in
  let '(ex, ey, _) := endVoxel in
  (quot32 ox tileSize, quot32 oy tileSize,
   quot32 ex tileSize, quot32 ey tileSize).

(** One server-add call; an error ends the run. *)
Definition addTile (datasetName uuidStr offsetStr filename : string)
  : M unit :=
  err <- runCommand
           ["dvid"; datasetName; "server-add"; uuidStr; offsetStr; filename] ;;
  match err with
  | Some e => log_Fatalf ("Error in command: %s" ++ nl) [VStr e]
  | None => ret tt
  end.

(** The body of the innermost loop: the tile at [(tileY, tileX)] of
    slice [z]. *)
Definition tileStep (flags : Flags)
    (uuidStr datasetName tilesDir : string) (z tileY tileX : Z)
    (numTiles : Z) : M Z :=
  let offsetStr :=
    Sprintf "%d,%d,%d"
      [VInt (mul32 tileX tileSize); VInt (mul32 tileY tileSize); VInt z] in
  when (loadSuperpixels flags)
    (let filename := Join [tilesDir; tileFilename tileY tileX z true] in
     addTile datasetName uuidStr offsetStr filename) ;;
  when (loadGrayscale flags)
    (let filename := Join [tilesDir; tileFilename tileY tileX z false] in
     addTile datasetName uuidStr offsetStr filename) ;;
  ret (add64 numTiles 1).

(** The body of the loop over slices. *)
Definition sliceStep (fuel : nat) (flags : Flags)
    (uuidStr datasetName tilesDir : string)
    (startTileX startTileY endTileX endTileY : Z) (z : Z) : M unit :=
  numTiles <-
    for_ fuel (fun tileY => tileY <=? endTileY)%Z startTileY
      (fun tileY numTiles =>
         for_ fuel (fun tileX => tileX <=? endTileX)%Z startTileX
           (tileStep flags uuidStr datasetName tilesDir z tileY)
           numTiles)
      0 ;;
  emit (Printf ("Added %d %s tiles from z = %d..." ++ nl)
          [VInt numTiles; VStr datasetName; VInt z]).

Definition main (fuel : nat) (programName : string) (flags : Flags)
    (args : list string) : M unit :=
  if showHelp flags then usage programName ;; exit 0
  else if (length args <? 5)%nat then usage programName ;; exit 2
  else
    uuidStr <- index args 0 ;;
    datasetName <- index args 1 ;;
    tilesDir <- index args 2 ;;
    offsetStr <- index args 3 ;;
    sizeStr <- index args 4 ;;
    emit (Println [VStr "Tiles directory:"; VStr tilesDir]) ;;
    parsed <- asks (fun env => VoxelCoord env offsetStr) ;;
    match parsed with
    | Err e => log_Fatal [VStr e]
    | Ok offset =>
        emit (Printf ("Offset: %s" ++ nl) [point offset]) ;;
        parsed <- asks (fun env => Point3d env sizeStr) ;;
        match parsed with
        | Err e => log_Fatal [VStr e]
        | Ok size =>
            emit (Printf ("Size: %s" ++ nl) [point size]) ;;
            let endVoxel := AddSize offset size in
            let '(startTileX, startTileY, endTileX, endTileY) :=
              tileBounds offset size in
            for_ fuel (fun z => z <=? snd endVoxel)%Z (snd offset)
              (fun z _ =>
                 sliceStep fuel flags uuidStr datasetName tilesDir
                   startTileX startTileY endTileX endTileY z)
              tt
        end
    end.

End Raveler.

(** ** The converter that creates a DVID database from a VoxelProof data
     directory *)

Module VoxelProof.
Import Go Eff.

Definition helpMessage : string :=
  "
%s creates a DVID database from a VoxelProof data directory.

Usage: %s [options] <VoxelProof path> <z range> <tile size> <output db path>

  -h, -help       (flag)    Show help message

<VoxelProof path>       Path to VoxelProof data directory.
<z range>               Range of z slices in " ++ dq ++ "zmin,zmax" ++ dq
  ++ " format, e.g., " ++ dq ++ "0,619" ++ dq ++ " for z = 0 to 619.
<tile size>             Size of tile in " ++ dq ++ "width,height" ++ dq
  ++ " format, e.g., " ++ dq ++ "100,100" ++ dq ++ " for 100x100.
<output db path>        Path to output DVID datastore directory to create.
".

Definition usage (programName : string) : M unit :=
  emit (Printf helpMessage [VStr programName; VStr programName]).

(** The loop of initDatastore over the lines of the init command. *)
Fixpoint scanLines (lines : list string) : M string :=
  match lines with
  | [] =>
      log_Fatalln
        [VStr "Did not detect root version UUID in output of dvid init!"]
  | line :: rest =>
      match Sscanf1 line "Root node UUID: %s" with
      | Some uuidStr => ret uuidStr
      | None => scanLines rest
      end
  end.

Definition initDatastore (outputDir : string) : M string :=
  let cmd := ["dvid"; "-datastore=" ++ outputDir; "init"] in
  err <- asks (fun env => StdoutPipe_err env cmd) ;;
  emit (StdoutPipe cmd err) ;;
  match err with
  | Some e => log_Fatal [VStr e]
  | None =>
      err <- asks (fun env => Start_err env cmd) ;;
      emit (Start cmd err) ;;
      match err with
      | Some e => log_Fatal [VStr e]
      | None =>
          lines <- asks (fun env => stdout_lines env cmd) ;;
          scanLines lines
      end
  end.

(** Which of the two tile trees a tile is taken from. *)
Inductive kind := grayscale | labels.

Definition dataset (k : kind) : string :=
  match k with
  | grayscale => "grayscale"
  | labels => "labels"
  end.

(** The file of the tile at row [y] and column [x] of slice [z]. *)
Definition tilepath (k : kind) (voxelProofDir : string) (z y x : Z)
  : string :=
  let fname := Sprintf "%d-%d.png" [VInt y; VInt x] in
  match k with
  | grayscale => Join [voxelProofDir; "z"; Itoa z; fname]
  | labels => Join [voxelProofDir; "comps"; "z"; Itoa z; fname]
  end.

(** The body of the innermost loop of either pass. *)
Definition tileStep (k : kind) (voxelProofDir uuidStr : string)
    (zrange tileSize : Z * Z) (z y x : Z) : M unit :=
  let ox := mul32 x (fst tileSize) in
  let oy := mul32 y (snd tileSize) in
  let oz := sub32 z (fst zrange) in
  let offsetStr := Sprintf "%d,%d,%d" [VInt ox; VInt oy; VInt oz] in
  err <- runCommand
           ["dvid"; dataset k; "server-add"; uuidStr; offsetStr;
            tilepath k voxelProofDir z y x] ;;
  match err with
  | Some e => log_Fatalf ("Error in command: %s" ++ nl) [VStr e]
  | None => ret tt
  end.

Definition progress (k : kind) : string :=
  match k with
  | grayscale => "Added %d grayscale tiles from z = %d..." ++ nl
  | labels => "Added %d label tiles from z = %d..." ++ nl
  end.

(** One pass over the slices: "Add grayscale" or "Add labels". *)
Definition addTiles (fuel : nat) (k : kind) (voxelProofDir uuidStr : string)
    (zrange tileSize : Z * Z) (tileXMax tileYMax numTiles : Z) : M unit :=
  for_ fuel (fun z => z <=? snd zrange)%Z (fst zrange)
    (fun z _ =>
       for_ fuel (fun y => y <? tileYMax)%Z 0
         (fun y _ =>
            for_ fuel (fun x => x <? tileXMax)%Z 0
              (fun x _ =>
                 tileStep k voxelProofDir uuidStr zrange tileSize z y x)
              tt)
         tt ;;
       emit (Printf (progress k) [VInt numTiles; VInt z]))
    tt.

Definition vol : Z * Z * Z := (700, 700, 620).

(** main from the deferred shutdown call on.  [Notify] stands for the
    registration of the interrupt handler; the goroutine that waits for
    the signal runs beside main and is no part of this sequential run. *)
Definition convert (fuel : nat) (voxelProofDir uuidStr : string)
    (zrange tileSize : Z * Z) : M unit :=
  defer (runCommand ["dvid"; "shutdown"])
    (emit Notify ;;
     runCommand ["dvid"; "dataset"; "grayscale"; "grayscale8"] ;;
     runCommand ["dvid"; "dataset"; "labels"; "labels32"] ;;
     tileXMax <- div32 (fst (fst vol)) (fst tileSize) ;;
     tileYMax <- div32 (snd (fst vol)) (snd tileSize) ;;
     emit (Printf ("X Tiles from [0,%d), Y Tiles from [0,%d)" ++ nl)
             [VInt tileXMax; VInt tileYMax]) ;;
     let numTiles := mul32 tileXMax tileYMax in
     addTiles fuel grayscale voxelProofDir uuidStr zrange tileSize
       tileXMax tileYMax numTiles ;;
     addTiles fuel labels voxelProofDir uuidStr zrange tileSize
       tileXMax tileYMax numTiles).

Definition main (fuel : nat) (programName : string) (showHelp : bool)
    (args : list string) : M unit :=
  if showHelp then usage programName ;; exit 0
  else if (length args <? 3)%nat then usage programName ;; exit 2
  else
    voxelProofDir <- index args 0 ;;
    zrangeStr <- index args 1 ;;
    tileSizeStr <- index args 2 ;;
    outputDir <- index args 3 ;;
    emit (Println [VStr "VoxelProof data directory:"; VStr voxelProofDir]) ;;
    parsed <- asks (fun env => Point2d env zrangeStr) ;;
    match parsed with
    | Err e => log_Fatal [VStr e]
    | Ok zrange =>
        emit (Printf ("Z range %d -> %d" ++ nl)
                [VInt (fst zrange); VInt (snd zrange)]) ;;
        parsed <- asks (fun env => Point2d env tileSizeStr) ;;
        match parsed with
        | Err e => log_Fatal [VStr e]
        | Ok tileSize =>
            emit (Printf ("Tile size: %d x %d pixels" ++ nl)
                    [VInt (fst tileSize); VInt (snd tileSize)]) ;;
            emit (Println [VStr "Output DVID database:"; VStr outputDir]) ;;
            uuidStr <- initDatastore outputDir ;;
            emit (Printf ("Initialized datastore with root version %s." ++ nl)
                    [VStr uuidStr]) ;;
            let cmd := ["dvid"; "-datastore=" ++ outputDir; "serve"] in
            err <- asks (fun env => Start_err env cmd) ;;
            emit (Start cmd err) ;;
            match err with
            | Some e => log_Fatal [VStr e]
            | None =>
                emit (Println
                        [VStr "Making sure DVID server has started..."]) ;;
                emit (Sleep 3) ;;
                convert fuel voxelProofDir uuidStr zrange tileSize
            end
        end
    end.

End VoxelProof.

(** ** Definitions the statements are written with *)

Module Spec.
Import Go Eff.
Local Open Scope list_scope.

(** [count] consecutive integers from [first] on. *)
Fixpoint Zseq (first : Z) (count : nat) : list Z :=
  match count with
  | O => []
  | S count' => first :: Zseq (first + 1) count'
  end.

(** The integers from [lo] to [hi], both included. *)
Definition Zrange (lo hi : Z) : list Z := Zseq lo (Z.to_nat (hi - lo + 1)).

(** [body] run on the elements of a list, one after the other. *)
Fixpoint foldM {S : Type} (body : Z -> S -> M S) (l : list Z) (s : S)
  : M S :=
  match l with
  | [] => ret s
  | i :: l' => s' <- body i s ;; foldM body l' s'
  end.

(** The commands run to their end, in the order of the trace. *)
Definition command_of (e : event) : list (list string) :=
  match e with
  | Output argv _ _ => [argv]
  | _ => []
  end.

Definition commands (t : list event) : list (list string) :=
  flat_map command_of t.

(** A tile import: [dvid <dataset> server-add <uuid> <offset> <file>]. *)
Definition is_import (argv : list string) : bool :=
  match argv with
  | [_; _; verb; _; _; _] => String.eqb verb "server-add"
  | _ => false
  end.

(** The decimal digit [d], for [0 <= d <= 9]. *)
Definition digit (d : Z) : ascii := ascii_of_nat (48 + Z.to_nat d).

(** [z] written with three digits, zeros in front. *)
Definition three_digits (z : Z) : string :=
  String (digit (z / 100))
    (String (digit (z / 10 mod 10)) (String (digit (z mod 10)) "")).

(** Layout A as the specification words it. *)
Definition layoutA (row col z : Z) (superpixel : bool) : string :=
  ("1024/0/" ++ fmt_d row ++ "/" ++ fmt_d col ++ "/"
   ++ (if superpixel then "s" else "g") ++ "/"
   ++ (if (1000 <=? z)%Z
       then fmt_d (z / 1000 * 1000) ++ "/" ++ fmt_d z ++ ".png"
       else three_digits z ++ ".png"))%string.




(** The line carries the root version [token]. *)
Definition uuid_line (line token : string) : Prop :=
  Sscanf1 line "Root node UUID: %s" = Some token.

Definition init_cmd (outputDir : string) : list string :=
  ["dvid"; ("-datastore=" ++ outputDir)%string; "init"].


(** The import call of the converter for the tile at row [y] and column
    [x] of slice [z]: the offset is the corner of the tile, with z counted
    from the first slice. *)
Definition import_call (k : VoxelProof.kind) (voxelProofDir uuidStr : string)
    (zmin tw th : Z) (z y x : Z) : list string :=
  ["dvid"; VoxelProof.dataset k; "server-add"; uuidStr;
   (fmt_d (x * tw) ++ "," ++ fmt_d (y * th) ++ "," ++ fmt_d (z - zmin))%string;
   VoxelProof.tilepath k voxelProofDir z y x].

(** The import calls of one pass: slices in the order of [zs], in each
    slice the rows [ys] outside and the columns [xs] inside. *)
Definition pass_calls (k : VoxelProof.kind) (voxelProofDir uuidStr : string)
    (zmin tw th : Z) (zs ys xs : list Z) : list (list string) :=
  flat_map
    (fun z =>
       flat_map
         (fun y =>
            flat_map
              (fun x => [import_call k voxelProofDir uuidStr zmin tw th z y x])
              xs)
         ys)
    zs.

(** The tile grid of the tile importer: the cells (row, column) between
    the bounds of the code, both ends included, rows first. *)
Definition grid (offset size : Z * Z * Z) : list (Z * Z) :=
  let '(startTileX, startTileY, endTileX, endTileY) :=
    Raveler.tileBounds offset size in
  list_prod (Zrange startTileY endTileY) (Zrange startTileX endTileX).

Definition cells (offset size : Z * Z * Z) : Z :=
  Z.of_nat (length (grid offset size)).

(** The progress line of the tile importer. *)
Definition added (numTiles : Z) (datasetName : string) (z : Z) : event :=
  Printf ("Added %d %s tiles from z = %d..." ++ nl)%string
    [VInt numTiles; VStr datasetName; VInt z].

(** The import calls of the tile importer for one tile: the superpixel
    tile when that flag is set, then the grayscale tile when that flag is
    set, both at the corner of the tile and the slice [z]. *)
Definition tile_calls (flags : Raveler.Flags)
    (uuidStr datasetName tilesDir : string) (z tileY tileX : Z)
    : list (list string) :=
  let offsetStr :=
    (fmt_d (tileX * 1024) ++ "," ++ fmt_d (tileY * 1024) ++ ","
     ++ fmt_d z)%string in
  (if Raveler.loadSuperpixels flags
   then [["dvid"; datasetName; "server-add"; uuidStr; offsetStr;
          Join [tilesDir; Raveler.tileFilename tileY tileX z true]]]
   else [])
  ++ (if Raveler.loadGrayscale flags
      then [["dvid"; datasetName; "server-add"; uuidStr; offsetStr;
             Join [tilesDir; Raveler.tileFilename tileY tileX z false]]]
      else []).

(** What the tile importer prints before its loops. *)
Definition header (tilesDir : string) (offset size : Z * Z * Z)
  : list event :=
  [Println [VStr "Tiles directory:"; VStr tilesDir];
   Printf ("Offset: %s" ++ nl)%string [Raveler.point offset];
   Printf ("Size: %s" ++ nl)%string [Raveler.point size]].

(** The offset strings of the import calls among [cmds]. *)
Definition offsets (cmds : list (list string)) : list string :=
  map (fun argv => nth 4 argv ""%string) (filter is_import cmds).

Definition dataset_calls : list (list string) :=
  [["dvid"; "dataset"; "grayscale"; "grayscale8"];
   ["dvid"; "dataset"; "labels"; "labels32"]].

Definition shutdown_call : list string := ["dvid"; "shutdown"].

(** A line written by the log package. *)
Definition is_log (e : event) : bool :=
  match e with
  | Log _ | Logln _ | Logf _ _ => true
  | _ => false
  end.

Definition serve_cmd (outputDir : string) : list string :=
  ["dvid"; ("-datastore=" ++ outputDir)%string; "serve"].

End Spec.

(** ** Properties of computations and of their traces *)

Module Inv.
Import Go Eff Spec.
Local Open Scope list_scope.

(** Every event of every run of [m] satisfies [P]. *)
Definition emits {A} (P : event -> Prop) (m : M A) : Prop :=
  forall env n, Forall P (snd (fst (m env n))).

(** Every value [m] returns satisfies [Q]. *)
Definition returns {A} (m : M A) (Q : A -> Prop) : Prop :=
  forall env n a t n', m env n = (Ret a, t, n') -> Q a.

(** Every event of every run of [m] in the environment [env] satisfies
    [P]. *)
Definition emits_at {A} (P : event -> Prop) (m : M A) (env : Env) : Prop :=
  forall n, Forall P (snd (fst (m env n))).

(** The progress lines of the tile importer carry the count [c]. *)
Definition progress_ok (c : Z) (e : event) : Prop :=
  forall numTiles datasetName z,
    e = added numTiles datasetName z -> numTiles = c.

(** What a driver does after an import call that failed: the output of
    the command is printed when there is some, the error is logged. *)
Definition fatal_tail (out : string) (e : error) : list event :=
  (if (0 <? String.length out)%nat then [Println [VStr out]] else [])
  ++ [Logf ("Error in command: %s" ++ nl)%string [VStr e]].

(** A failed import call is followed by its fatal tail and nothing else. *)
Fixpoint halts_at_failure (t : list event) : Prop :=
  match t with
  | [] => True
  | Output argv out (Some e) :: t' =>
      if is_import argv then t' = fatal_tail out e else halts_at_failure t'
  | _ :: t' => halts_at_failure t'
  end.

Definition failed_import (e : event) : bool :=
  match e with
  | Output argv _ (Some _) => is_import argv
  | _ => false
  end.

(** In every run of [m] a failed import ends the trace, and the run
    leaves through os.Exit(1). *)
Definition halting {A} (m : M A) : Prop :=
  forall env n,
    match m env n with
    | (r, t, _) =>
        halts_at_failure t /\ (existsb failed_import t = true -> r = Exit 1)
    end.


(** From any number of earlier calls on, [m] returns a value that
    satisfies [Q], and what [f] keeps of its events is [o]. *)
Definition yields {A O} (f : event -> list O) (m : M A) (env : Env)
    (Q : A -> Prop) (o : list O) : Prop :=
  forall n, exists a t n',
    m env n = (Ret a, t, n') /\ Q a /\ flat_map f t = o.

(** The whole trace is kept. *)
Definition every (e : event) : list event := [e].

(** No import call fails. *)
Definition imports_ok (env : Env) : Prop :=
  forall n argv, is_import argv = true -> snd (Output_of env n argv) = None.

(** The event is no shutdown call. *)
Definition not_shutdown (e : event) : Prop := command_of e <> [shutdown_call].

(** Whenever [m] leaves through os.Exit, no shutdown call was made. *)
Definition exits_without_shutdown {A} (m : M A) : Prop :=
  forall env n code t n',
    m env n = (Exit code, t, n') -> Forall not_shutdown t.

End Inv.

(** ** Environments and inputs of sample runs *)

Module Sample.
Import Go Eff Spec.
Local Open Scope list_scope.

(** The commands whose number in the run satisfies [failing] end with an
    error, the others succeed; the init command prints the root version
    on its second line. *)
Definition env (failing : nat -> bool) : Env := {|
  Point2d := fun s =>
    if String.eqb s "0,2" then Ok (0, 2)
    else if String.eqb s "350,350" then Ok (350, 350)
    else if String.eqb s "100,100" then Ok (100, 100)
    else if String.eqb s "1024,1024" then Ok (1024, 1024)
    else Err "illegal point";
  Point3d := fun s =>
    if String.eqb s "1500,500,1" then Ok (1500, 500, 1)
    else Err "illegal point";
  VoxelCoord := fun s =>
    if String.eqb s "1000,2000,5" then Ok (1000, 2000, 5)
    else Err "illegal point";
  StdoutPipe_err := fun _ => None;
  Start_err := fun _ => None;
  stdout_lines := fun _ =>
    ["Initializing datastore"; "Root node UUID: 28f1a9c4"];
  Output_of := fun n argv =>
    ("", if failing n then Some "exit status 1" else None)
|}.

Definition never (n : nat) : bool := false.

Definition converter_args (tileSize : string) : list string :=
  ["/data/vp"; "0,2"; tileSize; "/data/out"].

Definition raveler_args : list string :=
  ["28f1a9c4"; "grayscale"; "/data/tiles"; "1000,2000,5"; "1500,500,1"].

Definition both : Raveler.Flags :=
  {| Raveler.loadSuperpixels := true; Raveler.loadGrayscale := true;
     Raveler.showHelp := false |}.

Definition neither : Raveler.Flags :=
  {| Raveler.loadSuperpixels := false; Raveler.loadGrayscale := false;
     Raveler.showHelp := false |}.

End Sample.

(** ** Further definitions for statements on whole runs *)

Module More.
Import Go Eff Spec Inv.
Local Open Scope list_scope.

(** The import calls of the tile importer: slices in the order of [zs],
    in each slice the rows [ys] outside and the columns [xs] inside. *)
Definition importer_calls (flags : Raveler.Flags)
    (uuidStr datasetName tilesDir : string) (zs ys xs : list Z)
    : list (list string) :=
  flat_map
    (fun z =>
       flat_map
         (fun tileY =>
            flat_map
              (fun tileX =>
                 tile_calls flags uuidStr datasetName tilesDir z tileY tileX)
              xs)
         ys)
    zs.

(** The character [c] occurs in [s]. *)
Fixpoint has (c : ascii) (s : string) : bool :=
  match s with
  | EmptyString => false
  | String d s' => Ascii.eqb c d || has c s'
  end.

(** The characters of a decimal numeral: the digits and the sign. *)
Definition numeral_char (c : ascii) : bool :=
  existsb (Ascii.eqb c)
    ["0"; "1"; "2"; "3"; "4"; "5"; "6"; "7"; "8"; "9"; "-"]%char.

(** The ways a run ends without returning. *)
Inductive stop :=
| Exits (code : Z)
| Panics (msg : string).

Definition stopped {A} (s : stop) : outcome A :=
  match s with
  | Exits code => Exit code
  | Panics msg => Panic msg
  end.

(** From any number of earlier calls on, [m] stops as [s] says, and what
    [f] keeps of its events is [o]. *)
Definition stops {A O} (f : event -> list O) (m : M A) (env : Env)
    (s : stop) (o : list O) : Prop :=
  forall n, exists t n', m env n = (stopped s, t, n') /\ flat_map f t = o.

(** What the converter prints before it launches anything. *)
Definition converter_header (voxelProofDir outputDir : string)
    (zrange tileSize : Z * Z) : list event :=
  [Println [VStr "VoxelProof data directory:"; VStr voxelProofDir];
   Printf ("Z range %d -> %d" ++ nl)%string
     [VInt (fst zrange); VInt (snd zrange)];
   Printf ("Tile size: %d x %d pixels" ++ nl)%string
     [VInt (fst tileSize); VInt (snd tileSize)];
   Println [VStr "Output DVID database:"; VStr outputDir]].

(** main of the converter from the call of initDatastore on, for
    arguments that parsed as [zrange] and [tileSize]. *)
Definition launch (fuel : nat) (voxelProofDir outputDir : string)
    (zrange tileSize : Z * Z) : M unit :=
  (uuidStr <- VoxelProof.initDatastore outputDir ;;
   emit (Printf ("Initialized datastore with root version %s." ++ nl)%string
           [VStr uuidStr]) ;;
   let cmd := ["dvid"; ("-datastore=" ++ outputDir)%string; "serve"] in
   err <- asks (fun env => Start_err env cmd) ;;
   emit (Start cmd err) ;;
   match err with
   | Some e => log_Fatal [VStr e]
   | None =>
       emit (Println [VStr "Making sure DVID server has started..."]) ;;
       emit (Sleep 3) ;;
       VoxelProof.convert fuel voxelProofDir uuidStr zrange tileSize
   end)%go.

Definition divide_by_zero : string := "runtime error: integer divide by zero".


(** The sample environment with a server that cannot be started. *)
Definition env_no_server : Env := {|
  Point2d := Point2d (Sample.env Sample.never);
  Point3d := Point3d (Sample.env Sample.never);
  VoxelCoord := VoxelCoord (Sample.env Sample.never);
  StdoutPipe_err := fun _ => None;
  Start_err := fun argv =>
    if String.eqb (nth 2 argv ""%string) "serve"
    then Some "fork/exec: resource temporarily unavailable"%string
    else None;
  stdout_lines := stdout_lines (Sample.env Sample.never);
  Output_of := Output_of (Sample.env Sample.never)
|}.

(** The sample environment with one more text that parses, as [p]. *)
Definition env_point (text : string) (p : Z * Z) : Env := {|
  Point2d := fun s =>
    if String.eqb s text then Ok p
    else Point2d (Sample.env Sample.never) s;
  Point3d := Point3d (Sample.env Sample.never);
  VoxelCoord := VoxelCoord (Sample.env Sample.never);
  StdoutPipe_err := fun _ => None;
  Start_err := fun _ => None;
  stdout_lines := stdout_lines (Sample.env Sample.never);
  Output_of := Output_of (Sample.env Sample.never)
|}.



End More.

(** ** Facts on the Go runtime model *)

Section GoFacts.
Import Go.

Lemma wrap32_small (z : Z) : int32 z -> wrap32 z = z.
Proof.
  unfold int32, wrap32, wrap. intros H.
  change (2 ^ (32 - 1)) with 2147483648.
  change (2 ^ 32) with 4294967296.
  change (2 ^ 31) with 2147483648 in H.
  rewrite Z.mod_small by lia. lia.
Qed.

Lemma wrap32_int32 (z : Z) : int32 (wrap32 z).
Proof.
  unfold int32, wrap32, wrap.
  change (2 ^ (32 - 1)) with 2147483648.
  change (2 ^ 32) with 4294967296.
  change (2 ^ 31) with 2147483648.
  pose proof (Z.mod_pos_bound (z + 2147483648) 4294967296). lia.
Qed.

Lemma wrap64_small (z : Z) : - 2 ^ 63 <= z < 2 ^ 63 -> wrap64 z = z.
Proof.
  unfold wrap64, wrap. intros H.
  change (2 ^ (64 - 1)) with 9223372036854775808.
  change (2 ^ 64) with 18446744073709551616.
  change (2 ^ 63) with 9223372036854775808 in H.
  rewrite Z.mod_small by lia. lia.
Qed.

Lemma wrap64_add_l (a b : Z) : wrap64 (wrap64 a + b) = wrap64 (a + b).
Proof.
  unfold wrap64, wrap.
  change (2 ^ (64 - 1)) with 9223372036854775808.
  change (2 ^ 64) with 18446744073709551616.
  f_equal.
  replace ((a + 9223372036854775808) mod 18446744073709551616
           - 9223372036854775808 + b + 9223372036854775808)
    with ((a + 9223372036854775808) mod 18446744073709551616 + b) by lia.
  rewrite Z.add_mod_idemp_l by lia. f_equal. lia.
Qed.

Lemma inc32_small (i : Z) : - 2 ^ 31 <= i < MaxInt32 -> inc32 i = i + 1.
Proof.
  unfold MaxInt32. intros H. unfold inc32, add32.
  apply wrap32_small. unfold int32. lia.
Qed.

(** On operands that are not negative the truncated division of Go is
    the floor division. *)
Lemma quot32_floor (a b : Z) :
  0 <= a <= MaxInt32 -> 0 < b -> quot32 a b = a / b.
Proof.
  unfold MaxInt32. intros Ha Hb. unfold quot32.
  rewrite Z.quot_div_nonneg by lia.
  apply wrap32_small. unfold int32.
  pose proof (Z.div_pos a b). pose proof (Z.div_le_upper_bound a b (2 ^ 31 - 1)).
  assert (a / b <= a).
  { apply Z.div_le_upper_bound; nia. }
  lia.
Qed.

Lemma three_digits_fmt (z : Z) :
  0 <= z < 1000 -> fmt_03d z = Spec.three_digits z.
Proof.
  intros H.
  assert (A : forallb
                (fun n => String.eqb (fmt_03d (Z.of_nat n))
                            (Spec.three_digits (Z.of_nat n)))
                (seq 0 1000) = true) by (vm_compute; reflexivity).
  rewrite forallb_forall in A.
  specialize (A (Z.to_nat z)).
  rewrite Z2Nat.id in A by lia.
  apply String.eqb_eq, A, in_seq. lia.
Qed.

Lemma append_empty_r (s : string) : (s ++ "")%string = s.
Proof. induction s as [| c s IH]; cbn; [| rewrite IH]; reflexivity. Qed.

(** The offset string of an import call. *)
Lemma Sprintf_offset (x y z : Z) :
  Sprintf "%d,%d,%d" [VInt x; VInt y; VInt z]
  = (fmt_d x ++ "," ++ fmt_d y ++ "," ++ fmt_d z)%string.
Proof. cbn. rewrite append_empty_r. reflexivity. Qed.

End GoFacts.

Example fmt_d_1500 : Go.fmt_d 1500 = "1500".
Proof. reflexivity. Qed.

Example fmt_d_neg : Go.fmt_d (-7) = "-7".
Proof. reflexivity. Qed.

Example fmt_03d_42 : Go.fmt_03d 42 = "042".
Proof. reflexivity. Qed.

Example fmt_03d_neg : Go.fmt_03d (-5) = "-05".
Proof. reflexivity. Qed.

Example Clean_dots : Go.Clean "/a//b/./c/../d/" = "/a/b/d".
Proof. reflexivity. Qed.

Example Clean_up : Go.Clean "../../a/.." = "../..".
Proof. reflexivity. Qed.

Example Join_tiles : Go.Join ["tiles/"; "1024/0/2/3/g/1000/1500.png"]
                   = "tiles/1024/0/2/3/g/1000/1500.png".
Proof. reflexivity. Qed.

Example Sscanf_uuid :
Go.Sscanf1 "Root node UUID: 28f1a9  extra" "Root node UUID: %s"
= Some "28f1a9".
Proof. reflexivity. Qed.

Example Sscanf_other :
Go.Sscanf1 "Initializing datastore" "Root node UUID: %s" = None.
Proof. reflexivity. Qed.

(** ** Tile paths *)

Section TilePaths.
Import Go.

Lemma sliceDir_floor (slice : Z) :
  0 <= slice <= MaxInt32 ->
  mul32 (quot32 slice 1000) 1000 = slice / 1000 * 1000.
Proof.
  intros H. rewrite quot32_floor by lia.
  unfold mul32. apply wrap32_small.
  pose proof (Z.mul_div_le slice 1000).
  pose proof (Z.div_pos slice 1000).
  unfold int32, MaxInt32 in *. lia.
Qed.

(** C6: the tile-server importer's relative tile path is
    "1024/0/<row>/<col>/<kind>/..." with kind "g" or "s"; from slice 1000
    on a bucket directory floor(z/1000)*1000 is inserted and z is written
    without leading zeros, below 1000 there is no bucket and z is written
    with three digits, zeros in front; (2,3,1500,grayscale) gives
    "1024/0/2/3/g/1000/1500.png" and (2,3,42,superpixel) gives
    "1024/0/2/3/s/042.png". *)
Theorem tileFilename_layoutA (row col z : Z) (superpixel : bool) :
  0 <= z <= MaxInt32 ->
  Raveler.tileFilename row col z superpixel = Spec.layoutA row col z superpixel
  /\ Raveler.tileFilename 2 3 1500 false = "1024/0/2/3/g/1000/1500.png"
  /\ Raveler.tileFilename 2 3 42 true = "1024/0/2/3/s/042.png".
Proof.
  intros Hz. split; [| split; reflexivity].
  unfold Raveler.tileFilename, Spec.layoutA.
  rewrite Z.geb_leb.
  destruct (1000 <=? z)%Z eqn:E.
  - rewrite sliceDir_floor by exact Hz.
    destruct superpixel; reflexivity.
  - apply Z.leb_gt in E.
    assert (P : fmt_03d z = Spec.three_digits z)
      by (apply three_digits_fmt; lia).
    rewrite <- P.
    destruct superpixel; reflexivity.
Qed.

Lemma tileFilename_layoutA_witness :
  Raveler.tileFilename 2 3 1500 false = Spec.layoutA 2 3 1500 false
  /\ Raveler.tileFilename 2 3 1500 false = "1024/0/2/3/g/1000/1500.png"
  /\ Raveler.tileFilename 2 3 42 true = "1024/0/2/3/s/042.png".
Proof.
  apply (tileFilename_layoutA 2 3 1500 false). unfold MaxInt32. lia.
Defined.

(** Below zero the sign takes one of the three places of [%03d]. *)
Example tileFilename_negative :
  Raveler.tileFilename 0 0 (-5) false = "1024/0/0/0/g/-05.png".
Proof. reflexivity. Qed.

(** C1, as the code has it: the converter names the tile of either tree
    "<row>-<col>.png"; the grayscale tile of (row 1, column 4, z 10) under
    "/root" is "/root/z/10/1-4.png", not the ".jpg" file of the directory
    layout, and the label tile is "/root/comps/z/10/1-4.png". *)
Theorem tilepath_grayscale_png (voxelProofDir : string) (z y x : Z) :
  VoxelProof.tilepath VoxelProof.grayscale voxelProofDir z y x
  = Join [voxelProofDir; "z"; Itoa z; fmt_d y ++ "-" ++ fmt_d x ++ ".png"]
  /\ VoxelProof.tilepath VoxelProof.grayscale "/root" 10 1 4
     = "/root/z/10/1-4.png"
  /\ VoxelProof.tilepath VoxelProof.grayscale "/root" 10 1 4
     <> "/root/z/10/1-4.jpg"
  /\ VoxelProof.tilepath VoxelProof.labels "/root" 10 1 4
     = "/root/comps/z/10/1-4.png".
Proof.
  repeat split; try reflexivity.
  vm_compute. discriminate.
Qed.

End TilePaths.

(** ** Reasoning on computations *)

Section MonadFacts.
Import Go Eff Spec Inv.
Local Open Scope list_scope.

Lemma bind_Ret {A B} (m : M A) (k : A -> M B) env n a t n' r t' n'' :
  m env n = (Ret a, t, n') ->
  k a env n' = (r, t', n'') ->
  bind m k env n = (r, t ++ t', n'').
Proof. intros E1 E2. unfold bind. rewrite E1, E2. reflexivity. Qed.

Lemma bind_inv {A B} (m : M A) (k : A -> M B) env n r t n' :
  bind m k env n = (r, t, n') ->
  (exists a t1 n1 t2,
      m env n = (Ret a, t1, n1) /\ k a env n1 = (r, t2, n')
      /\ t = t1 ++ t2)
  \/ (forall b, r <> Ret b) /\
     (exists r1, m env n = (r1, t, n') /\ (forall a, r1 <> Ret a)).
Proof.
  unfold bind. destruct (m env n) as [[[a | c | msg |] t1] n1] eqn:E.
  - destruct (k a env n1) as [[r2 t2] n2] eqn:E2. intros H; inversion H; subst.
    left. exists a, t1, n1, t2. auto.
  - intros H; inversion H; subst. right. split; [discriminate |].
    exists (Exit c). split; [reflexivity | discriminate].
  - intros H; inversion H; subst. right. split; [discriminate |].
    exists (Panic msg). split; [reflexivity | discriminate].
  - intros H; inversion H; subst. right. split; [discriminate |].
    exists OutOfFuel. split; [reflexivity | discriminate].
Qed.

(** *** Events *)

Lemma emits_ret {A} P (a : A) : emits P (ret a).
Proof. intros env n. constructor. Qed.

Lemma emits_exit {A} P code : emits P (@exit A code).
Proof. intros env n. constructor. Qed.

Lemma emits_panic {A} P msg : emits P (@panic A msg).
Proof. intros env n. constructor. Qed.

Lemma emits_asks {A} P (f : Env -> A) : emits P (asks f).
Proof. intros env n. constructor. Qed.

Lemma emits_emit P e : P e -> emits P (emit e).
Proof. intros H env n. cbn. auto. Qed.

Lemma emits_bind_returns {A B} P Q (m : M A) (k : A -> M B) :
  emits P m -> returns m Q -> (forall a, Q a -> emits P (k a)) ->
  emits P (bind m k).
Proof.
  intros Hm Hq Hk env n. specialize (Hm env n). unfold bind.
  destruct (m env n) as [[[a | c | msg |] t] n'] eqn:E; cbn in *; auto.
  specialize (Hk a (Hq _ _ _ _ _ E) env n').
  destruct (k a env n') as [[r t'] n'']. cbn in *.
  apply Forall_app; auto.
Qed.

Lemma emits_bind {A B} P (m : M A) (k : A -> M B) :
  emits P m -> (forall a, emits P (k a)) -> emits P (bind m k).
Proof.
  intros Hm Hk. apply emits_bind_returns with (Q := fun _ => True); auto.
  intros env n a t n' _. exact I.
Qed.

Lemma emits_when P b m : emits P m -> emits P (when b m).
Proof. destruct b; cbn; auto using emits_ret. Qed.

Lemma emits_index P args i : emits P (index args i).
Proof.
  unfold index. destruct (nth_error args i); auto using emits_ret, emits_panic.
Qed.

Lemma emits_div32 P a b : emits P (div32 a b).
Proof.
  unfold div32. destruct (b =? 0)%Z; auto using emits_ret, emits_panic.
Qed.

Lemma emits_log_Fatal {A} P args : P (Log args) -> emits P (@log_Fatal A args).
Proof. intros H. apply emits_bind; auto using emits_emit, emits_exit. Qed.

Lemma emits_log_Fatalln {A} P args :
  P (Logln args) -> emits P (@log_Fatalln A args).
Proof. intros H. apply emits_bind; auto using emits_emit, emits_exit. Qed.

Lemma emits_log_Fatalf {A} P format args :
  P (Logf format args) -> emits P (@log_Fatalf A format args).
Proof. intros H. apply emits_bind; auto using emits_emit, emits_exit. Qed.

Lemma emits_runCommand P args :
  (forall out err, P (Output args out err)) ->
  (forall out, P (Println [VStr out])) ->
  emits P (runCommand args).
Proof.
  intros H1 H2 env n. unfold runCommand.
  destruct (Output_of env n args) as [out err]. cbn.
  constructor; [apply H1 |].
  destruct (String.length out); [constructor |].
  constructor; [apply H2 | constructor].
Qed.

Lemma emits_for {S} P fuel cond (body : Z -> S -> M S) :
  (forall i s, emits P (body i s)) ->
  forall i s, emits P (for_ fuel cond i body s).
Proof.
  intros Hb. induction fuel as [| fuel IH]; intros i s; cbn.
  - intros env n. constructor.
  - destruct (cond i); auto using emits_ret, emits_bind.
Qed.

Lemma emits_defer {A B} P (d : M B) (body : M A) :
  emits P d -> emits P body -> emits P (defer d body).
Proof.
  intros Hd Hb env n. specialize (Hb env n). unfold defer.
  destruct (body env n) as [[[a | c | msg |] t] n']; cbn in *; auto;
    specialize (Hd env n');
    destruct (d env n') as [[[b | c' | msg' |] t'] n'']; cbn in *;
    apply Forall_app; auto.
Qed.

End MonadFacts.

(** ** Tactics for the events of a computation *)

(** [side] proves that one event satisfies the property at hand. *)
Ltac clean side :=
  repeat first
    [ apply emits_ret | apply emits_exit | apply emits_panic
    | apply emits_asks | apply emits_index | apply emits_div32
    | apply emits_emit; side
    | apply emits_log_Fatal; side
    | apply emits_log_Fatalln; side
    | apply emits_log_Fatalf; side
    | apply emits_when
    | apply emits_runCommand; [intros ? ?; side | intro; side]
    | apply emits_for; intros
    | apply emits_defer
    | apply emits_bind; [| intro]
    | match goal with
      | |- Inv.emits _ (match ?x with _ => _ end) => destruct x
      end ].

Ltac not_failed :=
  try match goal with
      | |- Inv.failed_import (Eff.Output _ _ ?err) = false => destruct err
      end;
  reflexivity.

Ltac quiet := clean not_failed.

Ltac other_command := intro; discriminate.

Ltac other_line := intros ? ? ? ?; discriminate.



(** ** A failed import ends the run *)

Section Halting.
Import Go Eff Spec Inv.
Local Open Scope list_scope.

Lemma halts_at_failure_app (t1 t2 : list event) :
  existsb failed_import t1 = false ->
  halts_at_failure t2 -> halts_at_failure (t1 ++ t2).
Proof.
  induction t1 as [| e t1 IH]; cbn; intros H1 H2; [exact H2 |].
  apply orb_false_iff in H1. destruct H1 as [He H1].
  destruct e; cbn in *; auto.
  destruct err; auto.
  rewrite He. auto.
Qed.

Lemma halts_at_failure_quiet (t : list event) :
  existsb failed_import t = false -> halts_at_failure t.
Proof.
  intros H. rewrite <- (app_nil_r t).
  apply halts_at_failure_app; cbn; auto.
Qed.





Lemma halting_quiet {A} (m : M A) :
  emits (fun e => failed_import e = false) m -> halting m.
Proof.
  intros H env n. specialize (H env n).
  destruct (m env n) as [[r t] n']. cbn in H.
  assert (Q : existsb failed_import t = false).
  { induction H as [| e t He _ IH]; cbn; [reflexivity |].
    rewrite He, IH. reflexivity. }
  split; [apply halts_at_failure_quiet; exact Q |].
  rewrite Q. discriminate.
Qed.

Lemma halting_bind {A B} (m : M A) (k : A -> M B) :
  halting m -> (forall a, halting (k a)) -> halting (bind m k).
Proof.
  intros Hm Hk env n. specialize (Hm env n). unfold bind.
  destruct (m env n) as [[[a | c | msg |] t] n'] eqn:E;
    destruct Hm as [H1 H2];
    try (split; [exact H1 | intros F; specialize (H2 F); congruence]).
  assert (Q : existsb failed_import t = false).
  { destruct (existsb failed_import t); [| reflexivity].
    discriminate (H2 eq_refl). }
  specialize (Hk a env n').
  destruct (k a env n') as [[r t'] n'']. destruct Hk as [K1 K2].
  split.
  - apply halts_at_failure_app; assumption.
  - rewrite existsb_app, Q. exact K2.
Qed.

Lemma halting_for {S} fuel cond (body : Z -> S -> M S) :
  (forall i s, halting (body i s)) ->
  forall i s, halting (for_ fuel cond i body s).
Proof.
  intros Hb. induction fuel as [| fuel IH]; intros i s; cbn.
  - intros env n. cbn. split; [exact I | discriminate].
  - destruct (cond i).
    + apply halting_bind; auto.
    + intros env n. cbn. split; [exact I | discriminate].
Qed.

Lemma halting_defer {A B} (d : M B) (body : M A) :
  halting d -> halting body -> halting (defer d body).
Proof.
  intros Hd Hb env n. specialize (Hb env n). unfold defer.
  destruct (body env n) as [[[a | c | msg |] t] n']; try exact Hb;
    destruct Hb as [H1 H2]; try (split; assumption);
    (assert (Q : existsb failed_import t = false)
      by (destruct (existsb failed_import t);
          [discriminate (H2 eq_refl) | reflexivity]));
    specialize (Hd env n');
    destruct (d env n') as [[[b | c' | msg' |] t'] n''];
    destruct Hd as [D1 D2];
    (split; [apply halts_at_failure_app; assumption |]);
    rewrite existsb_app, Q; cbn; intros F;
    try discriminate (D2 F); try (rewrite (D2 F); reflexivity);
    injection (D2 F) as ->; reflexivity.
Qed.

(** An import call together with the test of its error. *)
Lemma halting_import (argv : list string) :
  is_import argv = true ->
  halting
    (bind (runCommand argv)
       (fun err =>
          match err with
          | Some e => log_Fatalf ("Error in command: %s" ++ nl)%string [VStr e]
          | None => ret tt
          end)).
Proof.
  intros Hi env n. unfold bind, runCommand.
  destruct (Output_of env n argv) as [out [e |]]; cbn.
  - rewrite Hi. split; [| reflexivity].
    unfold fatal_tail. destruct (String.length out); reflexivity.
  - split; [| destruct (String.length out); cbn; discriminate].
    destruct (String.length out); cbn; exact I.
Qed.

End Halting.

Section DriversHalt.
Import Go Eff Spec Inv.
Local Open Scope list_scope.

Ltac halt :=
  repeat first
    [ apply halting_import; reflexivity
    | apply halting_for; intros
    | apply halting_defer
    | apply halting_bind; [| intro]
    | match goal with
      | |- halting (match ?x with _ => _ end) => destruct x
      end
    | solve [apply halting_quiet; quiet] ].


Lemma scanLines_emits (P : event -> Prop) lines :
  (forall args, P (Logln args)) -> emits P (VoxelProof.scanLines lines).
Proof.
  intros H. induction lines as [| line rest IH]; cbn [VoxelProof.scanLines].
  - apply emits_log_Fatalln, H.
  - destruct (Sscanf1 line "Root node UUID: %s"); [apply emits_ret | exact IH].
Qed.

Lemma scanLines_quiet lines :
  emits (fun e => failed_import e = false) (VoxelProof.scanLines lines).
Proof. apply scanLines_emits. reflexivity. Qed.

Lemma VoxelProof_main_halting fuel programName showHelp args :
  halting (VoxelProof.main fuel programName showHelp args).
Proof.
  unfold VoxelProof.main, VoxelProof.convert, VoxelProof.addTiles,
    VoxelProof.tileStep, VoxelProof.initDatastore, VoxelProof.usage.
  pose proof scanLines_quiet.
  repeat first [ progress halt | solve [apply halting_quiet; auto] ].
Qed.

(** *** The deferred shutdown call *)

Lemma exits_without_shutdown_emits {A} (m : M A) :
  emits not_shutdown m -> exits_without_shutdown m.
Proof.
  intros H env n code t n' E. specialize (H env n). rewrite E in H. exact H.
Qed.

Lemma exits_without_shutdown_bind {A B} (m : M A) (k : A -> M B) :
  emits not_shutdown m -> (forall a, exits_without_shutdown (k a)) ->
  exits_without_shutdown (bind m k).
Proof.
  intros Hm Hk env n code t n' E.
  destruct (bind_inv _ _ _ _ _ _ _ E)
    as [(a & t1 & n1 & t2 & E1 & E2 & ->) | (_ & r1 & E1 & _)].
  - apply Forall_app. split.
    + specialize (Hm env n). rewrite E1 in Hm. exact Hm.
    + eapply Hk. exact E2.
  - specialize (Hm env n). rewrite E1 in Hm. exact Hm.
Qed.

Lemma exits_without_shutdown_defer {A} (argv : list string) (body : M A) :
  emits not_shutdown body ->
  exits_without_shutdown (defer (runCommand argv) body).
Proof.
  intros Hb env n code t n'. specialize (Hb env n). unfold defer, runCommand.
  destruct (body env n) as [[[a | c | msg |] t0] n0]; cbn in Hb;
    try destruct (Output_of env n0 argv); try discriminate.
  intros E. inversion E; subst. exact Hb.
Qed.

Lemma VoxelProof_main_exits_without_shutdown fuel programName showHelp args :
  exits_without_shutdown (VoxelProof.main fuel programName showHelp args).
Proof.
  unfold VoxelProof.main, VoxelProof.convert, VoxelProof.addTiles,
    VoxelProof.tileStep, VoxelProof.initDatastore, VoxelProof.usage.
  assert (S : forall lines, emits not_shutdown (VoxelProof.scanLines lines))
    by (intros; apply scanLines_emits; intros; other_command).
  repeat first
    [ apply exits_without_shutdown_defer; clean other_command
    | apply exits_without_shutdown_bind;
      [solve [clean other_command; auto] | intro]
    | match goal with
      | |- exits_without_shutdown (match ?x with _ => _ end) => destruct x
      end
    | solve [apply exits_without_shutdown_emits; clean other_command; auto]
    | apply exits_without_shutdown_bind; [| intro] ].
Qed.

Lemma not_shutdown_commands (t : list event) :
  Forall not_shutdown t -> ~ In shutdown_call (commands t).
Proof.
  induction 1 as [| e t He _ IH]; cbn; [tauto |].
  unfold commands in *. cbn [flat_map]. rewrite in_app_iff.
  intros [H | H]; [| exact (IH H)].
  destruct e; cbn in H; try tauto.
  destruct H as [H | []]. apply He. cbn. rewrite H. reflexivity.
Qed.

End DriversHalt.

Section HaltsOnFailure.
Import Go Eff Spec Inv.
Local Open Scope list_scope.




End HaltsOnFailure.

(** ** Loops *)

Section Loops.
Import Go Eff Spec Inv.
Local Open Scope list_scope.

Lemma Zseq_length first count : length (Zseq first count) = count.
Proof.
  revert first. induction count as [| c IH]; intros first; cbn; auto.
Qed.

Lemma Zseq_In first count j :
  In j (Zseq first count) <-> first <= j < first + Z.of_nat count.
Proof.
  revert first. induction count as [| c IH]; intros first.
  - cbn. lia.
  - cbn [Zseq In]. rewrite IH. lia.
Qed.

Lemma Zrange_In lo hi j : In j (Zrange lo hi) <-> lo <= j <= hi.
Proof. unfold Zrange. rewrite Zseq_In. lia. Qed.

(** A loop whose counter does not wrap around runs its body on the
    values of the counter, in increasing order. *)
Lemma for_unroll {S} (cond : Z -> bool) (body : Z -> S -> M S) :
  forall (count fuel : nat) (i : Z) (s : S) env n,
    (count < fuel)%nat ->
    - 2 ^ 31 <= i ->
    i + Z.of_nat count <= MaxInt32 ->
    (forall j, i <= j < i + Z.of_nat count -> cond j = true) ->
    cond (i + Z.of_nat count) = false ->
    for_ fuel cond i body s env n = foldM body (Zseq i count) s env n.
Proof.
  unfold MaxInt32.
  induction count as [| c IH]; intros fuel i s env n Hf Hlo Hhi Ht Hc;
    (destruct fuel as [| fuel]; [lia |]); cbn [for_ Zseq foldM].
  - replace (i + Z.of_nat 0) with i in Hc by lia. rewrite Hc. reflexivity.
  - rewrite Ht by lia. unfold bind.
    destruct (body i s env n) as [[[s' | code | msg |] t] n']; try reflexivity.
    rewrite inc32_small by (unfold MaxInt32; lia).
    rewrite IH; [reflexivity | lia | lia | lia | |].
    + intros j Hj. apply Ht. lia.
    + rewrite <- Hc. f_equal. lia.
Qed.

(** [for i := lo; i <= hi; i++] *)
Lemma for_le_unroll {S} (body : Z -> S -> M S) (fuel : nat) (lo hi : Z)
    (s : S) env n :
  (Z.to_nat (hi - lo + 1) < fuel)%nat ->
  int32 lo -> hi < MaxInt32 ->
  for_ fuel (fun i => i <=? hi)%Z lo body s env n
  = foldM body (Zrange lo hi) s env n.
Proof.
  unfold int32, MaxInt32. intros Hf Hlo Hhi.
  unfold Zrange. apply for_unroll; unfold MaxInt32; try lia.
  apply Z.leb_gt. lia.
Qed.

(** [for i := 0; i < hi; i++] *)
Lemma for_lt_unroll {S} (body : Z -> S -> M S) (fuel : nat) (hi : Z)
    (s : S) env n :
  (Z.to_nat hi < fuel)%nat ->
  hi <= MaxInt32 ->
  for_ fuel (fun i => i <? hi)%Z 0 body s env n
  = foldM body (Zseq 0 (Z.to_nat hi)) s env n.
Proof.
  unfold MaxInt32. intros Hf Hhi.
  apply for_unroll; unfold MaxInt32; try lia.
  apply Z.ltb_ge. lia.
Qed.

(** *** What a computation yields *)

Lemma yields_ret {A O} (f : event -> list O) env (a : A) (Q : A -> Prop) :
  Q a -> yields f (ret a) env Q [].
Proof. intros H n. exists a, [], n. auto. Qed.

Lemma yields_asks {A O} (f : event -> list O) env (g : Env -> A)
    (Q : A -> Prop) :
  Q (g env) -> yields f (asks g) env Q [].
Proof. intros H n. exists (g env), [], n. auto. Qed.

Lemma yields_emit {O} (f : event -> list O) env e :
  yields f (emit e) env (fun _ => True) (f e).
Proof. intros n. exists tt, [e], n. cbn. rewrite app_nil_r. auto. Qed.

Lemma yields_emit_quiet {O} (f : event -> list O) env e :
  f e = [] -> yields f (emit e) env (fun _ => True) [].
Proof. intros H. rewrite <- H. apply yields_emit. Qed.

Lemma yields_bind {A B O} (f : event -> list O) env (m : M A)
    (k : A -> M B) (Q : A -> Prop) (R : B -> Prop) o1 o2 :
  yields f m env Q o1 ->
  (forall a, Q a -> yields f (k a) env R o2) ->
  yields f (bind m k) env R (o1 ++ o2).
Proof.
  intros Hm Hk n. destruct (Hm n) as (a & t & n' & E & Ha & Ho).
  destruct (Hk a Ha n') as (b & t' & n'' & E' & Hb & Ho').
  exists b, (t ++ t'), n''. split; [| split; [exact Hb |]].
  - eapply bind_Ret; eassumption.
  - rewrite flat_map_app, Ho, Ho'. reflexivity.
Qed.

Lemma yields_bind_ret {A B O} (f : event -> list O) env (a : A)
    (k : A -> M B) (R : B -> Prop) o :
  yields f (k a) env R o -> yields f (bind (ret a) k) env R o.
Proof.
  intros H. change o with ([] ++ o).
  apply yields_bind with (Q := fun v => v = a).
  - apply yields_ret. reflexivity.
  - intros v ->. exact H.
Qed.

Lemma yields_bind_asks {A B O} (f : event -> list O) env (g : Env -> A)
    (k : A -> M B) (R : B -> Prop) o :
  yields f (k (g env)) env R o -> yields f (bind (asks g) k) env R o.
Proof.
  intros H. change o with ([] ++ o).
  apply yields_bind with (Q := fun v => v = g env).
  - apply yields_asks. reflexivity.
  - intros v ->. exact H.
Qed.

Lemma yields_bind_quiet {B O} (f : event -> list O) env e
    (k : unit -> M B) (R : B -> Prop) o :
  f e = [] -> yields f (k tt) env R o -> yields f (bind (emit e) k) env R o.
Proof.
  intros He H. change o with ([] ++ o).
  apply yields_bind with (Q := fun _ => True).
  - apply yields_emit_quiet. exact He.
  - intros [] _. exact H.
Qed.

Lemma yields_bind_emit {B O} (f : event -> list O) env e
    (k : unit -> M B) (R : B -> Prop) o :
  yields f (k tt) env R o -> yields f (bind (emit e) k) env R (f e ++ o).
Proof.
  intros H. apply yields_bind with (Q := fun _ => True).
  - apply yields_emit.
  - intros [] _. exact H.
Qed.

Lemma yields_returns {A O} (f : event -> list O) env (m : M A)
    (Q R : A -> Prop) o :
  yields f m env Q o -> returns m R -> yields f m env R o.
Proof.
  intros H HR n. destruct (H n) as (a & t & n' & E & Ha & Ho).
  exists a, t, n'. split; [exact E | split; [| exact Ho]].
  eapply HR; eassumption.
Qed.

Lemma yields_ext {A O} (f : event -> list O) env (m m' : M A)
    (Q : A -> Prop) o :
  (forall n, m env n = m' env n) ->
  yields f m' env Q o -> yields f m env Q o.
Proof. intros E H n. rewrite E. apply H. Qed.

Lemma yields_foldM {S O} (f : event -> list O) env
    (body : Z -> S -> M S) (h : Z -> list O) (l : list Z) :
  (forall i s, In i l -> yields f (body i s) env (fun _ => True) (h i)) ->
  forall s, yields f (foldM body l s) env (fun _ => True) (flat_map h l).
Proof.
  induction l as [| i l IH]; intros H s; cbn [foldM flat_map].
  - apply yields_ret. exact I.
  - eapply yields_bind.
    + apply H. left. reflexivity.
    + intros s' _. apply IH. intros; apply H; right; assumption.
Qed.

Lemma yields_defer {A B O} (f : event -> list O) env (d : M B) (body : M A)
    (Q : A -> Prop) (R : B -> Prop) o1 o2 :
  yields f body env Q o1 -> yields f d env R o2 ->
  yields f (defer d body) env Q (o1 ++ o2).
Proof.
  intros Hb Hd n. destruct (Hb n) as (a & t & n' & E & Ha & Ho).
  destruct (Hd n') as (b & t' & n'' & E' & Hb' & Ho').
  exists a, (t ++ t'), n''. unfold defer. rewrite E, E'.
  split; [reflexivity | split; [exact Ha |]].
  rewrite flat_map_app, Ho, Ho'. reflexivity.
Qed.

Lemma yields_change {A O} (f : event -> list O) env (m : M A)
    (Q : A -> Prop) o o' :
  yields f m env Q o' -> o' = o -> yields f m env Q o.
Proof. intros H <-. exact H. Qed.

(** The run of a computation that yields. *)
Lemma yields_run {A O} (f : event -> list O) env (m : M A) (Q : A -> Prop) o :
  yields f m env Q o ->
  exists a, fst (run m env) = Ret a /\ Q a /\ flat_map f (snd (run m env)) = o.
Proof.
  intros H. destruct (H 0%nat) as (a & t & n' & E & Ha & Ho).
  exists a. unfold run. rewrite E. auto.
Qed.

Lemma flat_map_every (t : list event) : flat_map every t = t.
Proof. induction t as [| e t IH]; cbn; [| rewrite IH]; reflexivity. Qed.

(** *** Commands *)

Lemma yields_runCommand env argv :
  yields command_of (runCommand argv) env (fun _ => True) [argv].
Proof.
  intros n. unfold runCommand.
  destruct (Output_of env n argv) as [out err].
  eexists _, _, _. split; [reflexivity | split; [exact I |]].
  cbn. destruct (String.length out); reflexivity.
Qed.

Lemma yields_import env argv :
  imports_ok env -> is_import argv = true ->
  yields command_of (runCommand argv) env (fun err => err = None) [argv].
Proof.
  intros Hok Hi n. specialize (Hok n argv Hi). unfold runCommand.
  destruct (Output_of env n argv) as [out err]. cbn in Hok. subst err.
  eexists _, _, _. split; [reflexivity | split; [reflexivity |]].
  cbn. destruct (String.length out); reflexivity.
Qed.

End Loops.

(** ** Initialization of the datastore *)

Section Init.
Import Go Eff Spec Inv.
Local Open Scope list_scope.






Lemma scanLines_found (before : list string) line after token env n :
  Forall (fun l => forall t, ~ uuid_line l t) before ->
  uuid_line line token ->
  VoxelProof.scanLines (before ++ line :: after) env n = (Ret token, [], n).
Proof.
  intros Hb Hl. induction Hb as [| l before Hn _ IH]; cbn [app VoxelProof.scanLines].
  - unfold uuid_line in Hl. rewrite Hl. reflexivity.
  - destruct (Sscanf1 l "Root node UUID: %s") as [t |] eqn:E; [| exact IH].
    destruct (Hn t E).
Qed.


Lemma initDatastore_found env outputDir n before line after token :
  StdoutPipe_err env (init_cmd outputDir) = None ->
  Start_err env (init_cmd outputDir) = None ->
  stdout_lines env (init_cmd outputDir) = before ++ line :: after ->
  Forall (fun l => forall t, ~ uuid_line l t) before ->
  uuid_line line token ->
  VoxelProof.initDatastore outputDir env n
  = (Ret token,
     [StdoutPipe (init_cmd outputDir) None; Start (init_cmd outputDir) None],
     n).
Proof.
  unfold init_cmd. intros Hp Hs Hl Hb Ht.
  unfold VoxelProof.initDatastore, bind, asks, emit. rewrite Hp, Hs, Hl.
  rewrite (scanLines_found before line after token env n Hb Ht).
  reflexivity.
Qed.



End Init.

(** ** The passes of the converter *)

Section Converter.
Import Go Eff Spec Inv.
Local Open Scope list_scope.

(** The number of tiles across the 700 voxels of the volume. *)
Lemma tiles_across (tw : Z) :
  tw <> 0 -> int32 tw ->
  Z.to_nat (quot32 700 tw) = Z.to_nat (700 / tw)
  /\ quot32 700 tw <= 700
  /\ forall x, 0 <= x < quot32 700 tw -> 0 <= x * tw <= 700.
Proof.
  intros Hne Hi.
  destruct (Z.lt_trichotomy tw 0) as [Hneg | [H0 | Hpos]]; [| lia |].
  - assert (Q : Z.quot 700 tw = - (700 / - tw)).
    { rewrite <- (Z.opp_involutive tw) at 1.
      rewrite Z.quot_opp_r by lia. rewrite Z.quot_div_nonneg by lia.
      reflexivity. }
    pose proof (Z.div_pos 700 (- tw)).
    assert (700 / - tw <= 700) by (apply Z.div_le_upper_bound; nia).
    assert (W : quot32 700 tw = - (700 / - tw)).
    { unfold quot32. rewrite Q. apply wrap32_small. unfold int32. lia. }
    assert (700 / tw < 0).
    { pose proof (Z.div_mod 700 tw Hne).
      pose proof (Z.mod_neg_bound 700 tw Hneg). nia. }
    rewrite W. split; [lia | split; [lia |]]. intros x Hx. lia.
  - pose proof (Z.div_pos 700 tw).
    assert (700 / tw <= 700) by (apply Z.div_le_upper_bound; nia).
    assert (W : quot32 700 tw = 700 / tw).
    { unfold quot32. rewrite Z.quot_div_nonneg by lia.
      apply wrap32_small. unfold int32. lia. }
    rewrite W. split; [reflexivity | split; [lia |]].
    intros x Hx. pose proof (Z.mul_div_le 700 tw). nia.
Qed.

Lemma tileStep_yields env k voxelProofDir uuidStr zmin zmax tw th z y x :
  imports_ok env ->
  int32 (x * tw) -> int32 (y * th) -> int32 (z - zmin) ->
  yields command_of
    (VoxelProof.tileStep k voxelProofDir uuidStr (zmin, zmax) (tw, th) z y x)
    env (fun _ => True)
    [import_call k voxelProofDir uuidStr zmin tw th z y x].
Proof.
  intros Hok Hx Hy Hz.
  rewrite <- (app_nil_r [import_call _ _ _ _ _ _ _ _ _]).
  unfold VoxelProof.tileStep, import_call.
  cbn [fst snd]. unfold mul32, sub32.
  rewrite !wrap32_small by assumption.
  rewrite Sprintf_offset.
  eapply yields_bind.
  - apply yields_import; [exact Hok | reflexivity].
  - intros err ->. apply yields_ret. exact I.
Qed.

(** One pass, when no import fails and the counters do not wrap. *)
Lemma addTiles_yields env fuel k voxelProofDir uuidStr zmin zmax tw th
    numTiles :
  imports_ok env ->
  int32 zmin -> zmax < MaxInt32 -> zmax - zmin <= MaxInt32 ->
  int32 tw -> int32 th -> tw <> 0 -> th <> 0 ->
  (700 < fuel)%nat -> (Z.to_nat (zmax - zmin + 1) < fuel)%nat ->
  yields command_of
    (VoxelProof.addTiles fuel k voxelProofDir uuidStr (zmin, zmax) (tw, th)
       (quot32 700 tw) (quot32 700 th) numTiles)
    env (fun _ => True)
    (pass_calls k voxelProofDir uuidStr zmin tw th
       (Zrange zmin zmax)
       (Zseq 0 (Z.to_nat (700 / th))) (Zseq 0 (Z.to_nat (700 / tw)))).
Proof.
  intros Hok Hzmin Hzmax Hspan Htw Hth Hwne Hhne Hf Hfz.
  destruct (tiles_across tw Hwne Htw) as (Ew & Bw & Xw).
  destruct (tiles_across th Hhne Hth) as (Eh & Bh & Xh).
  unfold VoxelProof.addTiles, pass_calls. cbn [fst snd].
  eapply yields_ext.
  { intros n. apply for_le_unroll; assumption. }
  apply yields_foldM. intros z [] Hz. apply Zrange_In in Hz.
  rewrite <- (app_nil_r (flat_map _ _)).
  eapply yields_bind; [| intros; apply yields_emit_quiet; reflexivity].
  eapply yields_ext.
  { intros n. apply for_lt_unroll; unfold MaxInt32; lia. }
  rewrite Eh. apply yields_foldM. intros y [] Hy. apply Zseq_In in Hy.
  eapply yields_ext.
  { intros n. apply for_lt_unroll; unfold MaxInt32; lia. }
  rewrite Ew. apply yields_foldM. intros x [] Hx. apply Zseq_In in Hx.
  apply tileStep_yields; try assumption; unfold int32, MaxInt32 in *.
  - pose proof (Xw x). lia.
  - pose proof (Xh y). lia.
  - lia.
Qed.

(** The commands of the converter once the server runs. *)
Lemma convert_yields env fuel voxelProofDir uuidStr zmin zmax tw th :
  imports_ok env ->
  int32 zmin -> zmax < MaxInt32 -> zmax - zmin <= MaxInt32 ->
  int32 tw -> int32 th -> tw <> 0 -> th <> 0 ->
  (700 < fuel)%nat -> (Z.to_nat (zmax - zmin + 1) < fuel)%nat ->
  let pass k :=
    pass_calls k voxelProofDir uuidStr zmin tw th (Zrange zmin zmax)
      (Zseq 0 (Z.to_nat (700 / th))) (Zseq 0 (Z.to_nat (700 / tw))) in
  yields command_of
    (VoxelProof.convert fuel voxelProofDir uuidStr (zmin, zmax) (tw, th))
    env (fun _ => True)
    (dataset_calls ++ pass VoxelProof.grayscale ++ pass VoxelProof.labels
     ++ [shutdown_call]).
Proof.
  intros Hok Hzmin Hzmax Hspan Htw Hth Hwne Hhne Hf Hfz pass.
  unfold VoxelProof.convert. cbn [fst snd VoxelProof.vol].
  rewrite !app_assoc.
  eapply yields_defer; [| apply yields_runCommand].
  rewrite <- !app_assoc.
  change (dataset_calls ++ pass VoxelProof.grayscale ++ pass VoxelProof.labels)
    with ([] ++ [["dvid"; "dataset"; "grayscale"; "grayscale8"]]
          ++ [["dvid"; "dataset"; "labels"; "labels32"]]
          ++ [] ++ [] ++ []
          ++ pass VoxelProof.grayscale ++ pass VoxelProof.labels).
  eapply yields_bind; [apply yields_emit_quiet; reflexivity | intros _ _].
  eapply yields_bind; [apply yields_runCommand | intros _ _].
  eapply yields_bind; [apply yields_runCommand | intros _ _].
  eapply yields_bind
    with (Q := fun v => v = quot32 700 tw).
  { unfold div32. rewrite (proj2 (Z.eqb_neq tw 0) Hwne).
    apply yields_ret. reflexivity. }
  intros tileXMax ->.
  eapply yields_bind
    with (Q := fun v => v = quot32 700 th).
  { unfold div32. rewrite (proj2 (Z.eqb_neq th 0) Hhne).
    apply yields_ret. reflexivity. }
  intros tileYMax ->.
  eapply yields_bind; [apply yields_emit_quiet; reflexivity | intros _ _].
  eapply yields_bind; [| intros _ _]; apply addTiles_yields; assumption.
Qed.

End Converter.

Section ConverterRun.
Import Go Eff Spec Inv.
Local Open Scope list_scope.

Ltac ystep :=
  first [ apply yields_bind_ret | apply yields_bind_asks
        | apply yields_bind_quiet; [reflexivity |] ].

(** The commands of a whole run of the converter that meets no error. *)
Lemma main_yields env fuel programName voxelProofDir zrangeStr tileSizeStr
    outputDir more zmin zmax tw th before line after uuidStr :
  Point2d env zrangeStr = Ok (zmin, zmax) ->
  Point2d env tileSizeStr = Ok (tw, th) ->
  StdoutPipe_err env (init_cmd outputDir) = None ->
  Start_err env (init_cmd outputDir) = None ->
  stdout_lines env (init_cmd outputDir) = before ++ line :: after ->
  Forall (fun l => forall t, ~ uuid_line l t) before ->
  uuid_line line uuidStr ->
  Start_err env (serve_cmd outputDir) = None ->
  imports_ok env ->
  int32 zmin -> zmax < MaxInt32 -> zmax - zmin <= MaxInt32 ->
  int32 tw -> int32 th -> tw <> 0 -> th <> 0 ->
  (700 < fuel)%nat -> (Z.to_nat (zmax - zmin + 1) < fuel)%nat ->
  let pass k :=
    pass_calls k voxelProofDir uuidStr zmin tw th (Zrange zmin zmax)
      (Zseq 0 (Z.to_nat (700 / th))) (Zseq 0 (Z.to_nat (700 / tw))) in
  yields command_of
    (VoxelProof.main fuel programName false
       (voxelProofDir :: zrangeStr :: tileSizeStr :: outputDir :: more))
    env (fun _ => True)
    (dataset_calls ++ pass VoxelProof.grayscale ++ pass VoxelProof.labels
     ++ [shutdown_call]).
Proof.
  intros Hzr Hts Hp Hs Hl Hb Hu Hserve Hok Hzmin Hzmax Hspan Htw Hth Hwne Hhne
    Hf Hfz pass.
  unfold VoxelProof.main.
  cbn [length Nat.ltb Nat.leb index nth_error].
  do 5 ystep. ystep. rewrite Hzr. ystep.
  ystep. rewrite Hts. do 2 ystep.
  change (dataset_calls ++ pass VoxelProof.grayscale
          ++ pass VoxelProof.labels ++ [shutdown_call])
    with ([] ++ dataset_calls ++ pass VoxelProof.grayscale
          ++ pass VoxelProof.labels ++ [shutdown_call]).
  apply yields_bind with (Q := fun v => v = uuidStr).
  { intros n. eexists _, _, _.
    split; [eapply initDatastore_found; eassumption |].
    split; reflexivity. }
  intros ? ->. ystep.
  ystep. fold (serve_cmd outputDir). rewrite Hserve.
  do 3 ystep.
  apply convert_yields; assumption.
Qed.

End ConverterRun.

Section VolumeImport.
Import Go Eff Spec Inv.
Local Open Scope list_scope.

(** C9: when no command fails, the converter imports the grayscale tiles
    of all slices and then the label tiles of all slices, each pass with
    z ascending and, within a slice, rows outside and columns inside; the
    z-component of every offset is z - zmin.  For the z-range [0,2] and a
    grid of 2 by 2 tiles that makes 12 grayscale calls followed by 12
    label calls. *)
Theorem volume_import_calls env fuel programName voxelProofDir zrangeStr
    tileSizeStr outputDir zmin zmax tw th before line after uuidStr :
  Point2d env zrangeStr = Ok (zmin, zmax) ->
  Point2d env tileSizeStr = Ok (tw, th) ->
  StdoutPipe_err env (init_cmd outputDir) = None ->
  Start_err env (init_cmd outputDir) = None ->
  stdout_lines env (init_cmd outputDir) = before ++ line :: after ->
  Forall (fun l => forall t, ~ uuid_line l t) before ->
  uuid_line line uuidStr ->
  Start_err env (serve_cmd outputDir) = None ->
  imports_ok env ->
  0 <= zmin <= zmax -> zmax < MaxInt32 ->
  int32 tw -> int32 th -> tw <> 0 -> th <> 0 ->
  (700 < fuel)%nat -> (Z.to_nat (zmax - zmin + 1) < fuel)%nat ->
  let r :=
    run (VoxelProof.main fuel programName false
           [voxelProofDir; zrangeStr; tileSizeStr; outputDir]) env in
  let pass k :=
    pass_calls k voxelProofDir uuidStr zmin tw th (Zrange zmin zmax)
      (Zseq 0 (Z.to_nat (700 / th))) (Zseq 0 (Z.to_nat (700 / tw))) in
  fst r = Ret tt
  /\ commands (snd r)
     = dataset_calls ++ pass VoxelProof.grayscale ++ pass VoxelProof.labels
       ++ [shutdown_call]
  /\ (zmin = 0 -> zmax = 2 -> 700 / tw = 2 -> 700 / th = 2 ->
      forall k,
        length (pass k) = 12%nat
        /\ pass k
           = map (fun '(z, y, x) =>
                    import_call k voxelProofDir uuidStr 0 tw th z y x)
               [(0, 0, 0); (0, 0, 1); (0, 1, 0); (0, 1, 1);
                (1, 0, 0); (1, 0, 1); (1, 1, 0); (1, 1, 1);
                (2, 0, 0); (2, 0, 1); (2, 1, 0); (2, 1, 1)]).
Proof.
  intros Hzr Hts Hp Hs Hl Hb Hu Hserve Hok Hz Hzmax Htw Hth Hwne Hhne
    Hf Hfz r pass.
  assert (Y : yields command_of
                (VoxelProof.main fuel programName false
                   [voxelProofDir; zrangeStr; tileSizeStr; outputDir])
                env (fun _ => True)
                (dataset_calls ++ pass VoxelProof.grayscale
                 ++ pass VoxelProof.labels ++ [shutdown_call])).
  { eapply main_yields; try eassumption;
      unfold int32, MaxInt32 in *; lia. }
  apply yields_run in Y. destruct Y as ([] & Er & _ & Ec).
  split; [exact Er | split; [exact Ec |]].
  intros -> -> Ew Eh k. unfold pass. rewrite Ew, Eh.
  split; reflexivity.
Qed.

Lemma volume_import_calls_witness :
  let r := run (VoxelProof.main 701 "convert" false
                  (Sample.converter_args "350,350")) (Sample.env Sample.never) in
  let pass k :=
    pass_calls k "/data/vp" "28f1a9c4" 0 350 350 (Zrange 0 2)
      (Zseq 0 (Z.to_nat (700 / 350))) (Zseq 0 (Z.to_nat (700 / 350))) in
  fst r = Ret tt
  /\ commands (snd r)
     = dataset_calls ++ pass VoxelProof.grayscale ++ pass VoxelProof.labels
       ++ [shutdown_call]
  /\ (0 = 0 -> 2 = 2 -> 700 / 350 = 2 -> 700 / 350 = 2 ->
      forall k,
        length (pass k) = 12%nat
        /\ pass k
           = map (fun '(z, y, x) =>
                    import_call k "/data/vp" "28f1a9c4" 0 350 350 z y x)
               [(0, 0, 0); (0, 0, 1); (0, 1, 0); (0, 1, 1);
                (1, 0, 0); (1, 0, 1); (1, 1, 0); (1, 1, 1);
                (2, 0, 0); (2, 0, 1); (2, 1, 0); (2, 1, 1)]).
Proof.
  apply (volume_import_calls (Sample.env Sample.never) 701 "convert" "/data/vp"
           "0,2" "350,350" "/data/out" 0 2 350 350
           ["Initializing datastore"] "Root node UUID: 28f1a9c4" []
           "28f1a9c4");
    try reflexivity; try (unfold int32, MaxInt32; lia).
  - constructor; [| constructor]. intros t H. discriminate H.
  - intros n argv _. reflexivity.
Defined.

End VolumeImport.

(** ** Where the converter leaves its documentation *)

Section Divergences.
Import Go Eff Spec Inv.
Local Open Scope list_scope.

(** The tile importer asks for five arguments and stops with the usage
    text and exit code 2 when there are fewer. *)
Lemma Raveler_usage_error env fuel programName flags args :
  Raveler.showHelp flags = false ->
  (length args < 5)%nat ->
  run (Raveler.main fuel programName flags args) env
  = (Exit 2, [Printf Raveler.helpMessage [VStr programName; VStr programName]]).
Proof.
  intros Hh Hl. unfold Raveler.main. rewrite Hh.
  apply Nat.ltb_lt in Hl. rewrite Hl. reflexivity.
Qed.

(** The converter does the same below three arguments. *)
Lemma converter_usage_error env fuel programName args :
  (length args < 3)%nat ->
  run (VoxelProof.main fuel programName false args) env
  = (Exit 2,
     [Printf VoxelProof.helpMessage [VStr programName; VStr programName]]).
Proof.
  intros Hl. unfold VoxelProof.main.
  apply Nat.ltb_lt in Hl. rewrite Hl. reflexivity.
Qed.

(** C2, as the code has it: the converter documents four arguments and
    tests for fewer than three; with exactly three arguments it prints no
    usage text and does not call os.Exit(2): reading the fourth argument
    panics, before anything else is done. *)
Theorem converter_three_args_panic env fuel programName
    (voxelProofDir zrangeStr tileSizeStr : string) :
  run (VoxelProof.main fuel programName false
         [voxelProofDir; zrangeStr; tileSizeStr]) env
  = (Panic "runtime error: index out of range [3] with length 3", []).
Proof. reflexivity. Qed.

(** C4, as the code has it: when an import call fails the converter
    leaves through log.Fatalf, that is os.Exit(1), and the deferred
    shutdown call does not run: no shutdown command is part of the run. *)
Theorem failed_import_skips_shutdown env fuel programName showHelp args :
  existsb failed_import
    (snd (run (VoxelProof.main fuel programName showHelp args) env)) = true ->
  fst (run (VoxelProof.main fuel programName showHelp args) env) = Exit 1
  /\ ~ In shutdown_call
         (commands
            (snd (run (VoxelProof.main fuel programName showHelp args) env))).
Proof.
  pose proof (VoxelProof_main_halting fuel programName showHelp args env 0%nat)
    as H.
  pose proof (VoxelProof_main_exits_without_shutdown fuel programName
                showHelp args env 0%nat) as S.
  unfold run.
  destruct (VoxelProof.main fuel programName showHelp args env 0%nat)
    as [[r t] n']. cbn [fst snd]. destruct H as [_ H]. intros F.
  specialize (H F). subst r. split; [reflexivity |].
  apply not_shutdown_commands. eapply S. reflexivity.
Qed.

Lemma failed_import_skips_shutdown_witness :
  fst (run (VoxelProof.main 4 "convert" false
              (Sample.converter_args "350,350"))
         (Sample.env (Nat.eqb 5))) = Exit 1
  /\ ~ In shutdown_call
         (commands
            (snd (run (VoxelProof.main 4 "convert" false
                         (Sample.converter_args "350,350"))
                    (Sample.env (Nat.eqb 5))))).
Proof.
  apply (failed_import_skips_shutdown (Sample.env (Nat.eqb 5)) 4 "convert"
           false (Sample.converter_args "350,350")).
  vm_compute. reflexivity.
Defined.

(** C5, as the code has it: the errors of the two dataset-creation calls
    are dropped.  In the run where both calls fail nothing is logged, the
    24 tile imports follow, and the run returns from main. *)
Theorem dataset_errors_ignored :
  let r := run (VoxelProof.main 4 "convert" false
                  (Sample.converter_args "350,350"))
             (Sample.env (fun n => n <? 2)%nat) in
  fst r = Ret tt
  /\ In (Output ["dvid"; "dataset"; "grayscale"; "grayscale8"] ""
           (Some "exit status 1")) (snd r)
  /\ In (Output ["dvid"; "dataset"; "labels"; "labels32"] ""
           (Some "exit status 1")) (snd r)
  /\ existsb is_log (snd r) = false
  /\ length (filter is_import (commands (snd r))) = 24%nat.
Proof.
  vm_compute. repeat split; auto 20.
Qed.

End Divergences.

(** ** The loops of the tile importer *)

Section TileImporter.
Import Go Eff Spec Inv.
Local Open Scope list_scope.

(** *** Values returned *)

Lemma returns_ret {A} (a : A) (Q : A -> Prop) : Q a -> returns (ret a) Q.
Proof. intros H env n a' t n' E. inversion E; subst. exact H. Qed.

Lemma returns_bind {A B} (m : M A) (k : A -> M B) (Q : B -> Prop) :
  (forall a, returns (k a) Q) -> returns (bind m k) Q.
Proof.
  intros Hk env n b t n' E.
  destruct (bind_inv _ _ _ _ _ _ _ E)
    as [(a & t1 & n1 & t2 & E1 & E2 & ->) | (C & _)].
  - eapply Hk. exact E2.
  - destruct (C b eq_refl).
Qed.

Lemma returns_bind_returns {A B} (m : M A) (k : A -> M B) (P : A -> Prop)
    (Q : B -> Prop) :
  returns m P -> (forall a, P a -> returns (k a) Q) -> returns (bind m k) Q.
Proof.
  intros Hm Hk env n b t n' E.
  destruct (bind_inv _ _ _ _ _ _ _ E)
    as [(a & t1 & n1 & t2 & E1 & E2 & ->) | (C & _)].
  - eapply Hk; [| exact E2]. eapply Hm. exact E1.
  - destruct (C b eq_refl).
Qed.

Lemma tileStep_returns flags uuidStr datasetName tilesDir z tileY tileX
    numTiles :
  returns (Raveler.tileStep flags uuidStr datasetName tilesDir z tileY tileX
             numTiles)
    (fun c => c = add64 numTiles 1).
Proof.
  unfold Raveler.tileStep.
  apply returns_bind. intros _. apply returns_bind. intros _.
  apply returns_ret. reflexivity.
Qed.

(** A loop whose body applies [g] to the state applies it once for each
    value of the counter. *)
Lemma for_le_returns {S} (g : S -> S) (body : Z -> S -> M S) (hi : Z) :
  (forall i s, returns (body i s) (fun s' => s' = g s)) ->
  hi < MaxInt32 ->
  forall fuel lo s,
    int32 lo ->
    returns (for_ fuel (fun i => i <=? hi)%Z lo body s)
      (fun s' => s' = Nat.iter (Z.to_nat (hi - lo + 1)) g s).
Proof.
  intros Hb Hhi. unfold MaxInt32 in Hhi.
  induction fuel as [| fuel IH]; intros lo s Hlo; cbn [for_].
  - intros env n a t n' E. discriminate E.
  - destruct (lo <=? hi)%Z eqn:C.
    + apply Z.leb_le in C.
      eapply returns_bind_returns; [apply Hb |].
      intros s1 ->. cbv beta.
      rewrite inc32_small by (unfold int32, MaxInt32 in *; lia).
      replace (Z.to_nat (hi - lo + 1))
        with (Datatypes.S (Z.to_nat (hi - (lo + 1) + 1))) by lia.
      rewrite Nat.iter_succ_r. apply IH. unfold int32 in *. lia.
    + apply Z.leb_gt in C.
      replace (Z.to_nat (hi - lo + 1)) with 0%nat by lia.
      apply returns_ret. reflexivity.
Qed.

Lemma iter_add64 (k : nat) (a : Z) :
  Nat.iter k (fun c => add64 c 1) (wrap64 a) = wrap64 (a + Z.of_nat k).
Proof.
  induction k as [| k IH].
  - cbn. f_equal. lia.
  - rewrite Nat.iter_succ, IH. unfold add64.
    rewrite wrap64_add_l. f_equal. lia.
Qed.

Lemma iter_iter_add64 (rows cols : nat) (a : Z) :
  Nat.iter rows (Nat.iter cols (fun c => add64 c 1)) (wrap64 a)
  = wrap64 (a + Z.of_nat (rows * cols)).
Proof.
  induction rows as [| rows IH].
  - cbn. f_equal. lia.
  - rewrite Nat.iter_succ, IH, iter_add64. f_equal. lia.
Qed.

(** The bounds of the tile grid stay far from the ends of int32. *)
Lemma quot32_tileSize (a : Z) :
  int32 a -> - 2 ^ 21 <= quot32 a Raveler.tileSize < 2 ^ 21.
Proof.
  unfold int32, Raveler.tileSize. intros H.
  assert (L : Z.quot (- 2 ^ 31) 1024 <= Z.quot a 1024)
    by (apply Z.quot_le_mono; lia).
  assert (U : Z.quot a 1024 <= Z.quot (2 ^ 31 - 1) 1024)
    by (apply Z.quot_le_mono; lia).
  change (Z.quot (- 2 ^ 31) 1024) with (- 2 ^ 21) in L.
  change (Z.quot (2 ^ 31 - 1) 1024) with (2 ^ 21 - 1) in U.
  unfold quot32. rewrite wrap32_small; [lia |].
  unfold int32. change (2 ^ 21) with 2097152 in *.
  change (2 ^ 31) with 2147483648. lia.
Qed.

Lemma tileBounds_small offset size stx sty etx ety :
  int32 (fst (fst offset)) -> int32 (snd (fst offset)) ->
  Raveler.tileBounds offset size = (stx, sty, etx, ety) ->
  (- 2 ^ 21 <= stx < 2 ^ 21) /\ (- 2 ^ 21 <= sty < 2 ^ 21)
  /\ (- 2 ^ 21 <= etx < 2 ^ 21) /\ (- 2 ^ 21 <= ety < 2 ^ 21).
Proof.
  destruct offset as [[ox oy] oz], size as [[sx sy] sz]. cbn [fst snd].
  intros Hx Hy E. unfold Raveler.tileBounds, Raveler.AddSize in E.
  inversion E; subst.
  repeat split; apply quot32_tileSize;
    assumption || apply wrap32_int32.
Qed.

(** The count the two inner loops hand to the progress line. *)
Lemma tile_loops_return fuel flags uuidStr datasetName tilesDir
    stx sty etx ety z :
  (- 2 ^ 21 <= stx < 2 ^ 21) -> (- 2 ^ 21 <= sty < 2 ^ 21) ->
  (- 2 ^ 21 <= etx < 2 ^ 21) -> (- 2 ^ 21 <= ety < 2 ^ 21) ->
  returns
    (for_ fuel (fun tileY => tileY <=? ety)%Z sty
       (fun tileY numTiles =>
          for_ fuel (fun tileX => tileX <=? etx)%Z stx
            (Raveler.tileStep flags uuidStr datasetName tilesDir z tileY)
            numTiles)
       0)
    (fun c =>
       c = Z.of_nat (length (list_prod (Zrange sty ety) (Zrange stx etx)))).
Proof.
  intros Hsx Hsy Hex Hey.
  change (2 ^ 21) with 2097152 in *.
  assert (B : forall v, - 2097152 <= v < 2097152 -> int32 v /\ v < MaxInt32).
  { intros v Hv. unfold int32, MaxInt32.
    change (2 ^ 31) with 2147483648. lia. }
  intros env n c t n' E.
  pose proof (for_le_returns
                (Nat.iter (Z.to_nat (etx - stx + 1)) (fun c => add64 c 1))
                (fun tileY numTiles =>
                   for_ fuel (fun tileX => tileX <=? etx)%Z stx
                     (Raveler.tileStep flags uuidStr datasetName tilesDir z
                        tileY)
                     numTiles)
                ety) as R.
  specialize (R (fun tileY numTiles =>
                   for_le_returns (fun c => add64 c 1) _ etx
                     (fun tileX nt => tileStep_returns _ _ _ _ _ _ _ _)
                     (proj2 (B _ Hex)) fuel stx numTiles (proj1 (B _ Hsx)))
                (proj2 (B _ Hey)) fuel sty 0 (proj1 (B _ Hsy))
                env n c t n' E).
  rewrite R. change 0 with (wrap64 0) at 1.
  rewrite iter_iter_add64, length_prod. unfold Zrange.
  rewrite !Zseq_length. cbn [Z.add].
  apply wrap64_small.
  assert (Z.of_nat (Z.to_nat (ety - sty + 1) * Z.to_nat (etx - stx + 1))
          <= 4194304 * 4194304) by nia.
  pose proof (Nat2Z.is_nonneg
                (Z.to_nat (ety - sty + 1) * Z.to_nat (etx - stx + 1))).
  set (k := Z.of_nat (Z.to_nat (ety - sty + 1) * Z.to_nat (etx - stx + 1)))
    in *.
  change (2 ^ 63) with 9223372036854775808. lia.
Qed.

(** *** Events of a run in a given environment *)

Lemma emits_emits_at {A} P (m : M A) env : emits P m -> emits_at P m env.
Proof. intros H n. apply H. Qed.

Lemma emits_at_bind_ret {A B} P (a : A) (k : A -> M B) env :
  emits_at P (k a) env -> emits_at P (bind (ret a) k) env.
Proof.
  intros H n. specialize (H n). unfold bind, ret.
  destruct (k a env n) as [[r t] n']. exact H.
Qed.

Lemma emits_at_bind_asks {A B} P (g : Env -> A) (k : A -> M B) env :
  emits_at P (k (g env)) env -> emits_at P (bind (asks g) k) env.
Proof.
  intros H n. specialize (H n). unfold bind, asks.
  destruct (k (g env) env n) as [[r t] n']. exact H.
Qed.

Lemma emits_at_bind_emit {B} P e (k : unit -> M B) env :
  P e -> emits_at P (k tt) env -> emits_at P (bind (emit e) k) env.
Proof.
  intros He H n. specialize (H n). unfold bind, emit.
  destruct (k tt env n) as [[r t] n']. cbn in *. constructor; assumption.
Qed.

(** The progress line of a slice carries the number of cells of the
    grid, whatever the flags and the results of the imports. *)
Lemma sliceStep_progress fuel flags uuidStr datasetName tilesDir
    stx sty etx ety z :
  (- 2 ^ 21 <= stx < 2 ^ 21) -> (- 2 ^ 21 <= sty < 2 ^ 21) ->
  (- 2 ^ 21 <= etx < 2 ^ 21) -> (- 2 ^ 21 <= ety < 2 ^ 21) ->
  emits
    (progress_ok
       (Z.of_nat (length (list_prod (Zrange sty ety) (Zrange stx etx)))))
    (Raveler.sliceStep fuel flags uuidStr datasetName tilesDir
       stx sty etx ety z).
Proof.
  intros Hsx Hsy Hex Hey. unfold Raveler.sliceStep.
  eapply emits_bind_returns.
  - unfold Raveler.tileStep, Raveler.addTile. clean other_line.
  - apply tile_loops_return; assumption.
  - intros c ->. apply emits_emit.
    intros n name z' E. unfold added in E. inversion E. reflexivity.
Qed.

Lemma main_progress env fuel programName flags uuidStr datasetName tilesDir
    offsetStr sizeStr more offset size :
  VoxelCoord env offsetStr = Ok offset ->
  Point3d env sizeStr = Ok size ->
  int32 (fst (fst offset)) -> int32 (snd (fst offset)) ->
  emits_at (progress_ok (cells offset size))
    (Raveler.main fuel programName flags
       (uuidStr :: datasetName :: tilesDir :: offsetStr :: sizeStr :: more))
    env.
Proof.
  intros Ho Hs Hx Hy. unfold Raveler.main.
  destruct (Raveler.showHelp flags).
  { apply emits_emits_at. unfold Raveler.usage. clean other_line. }
  cbn [length Nat.ltb Nat.leb index nth_error].
  do 5 apply emits_at_bind_ret.
  apply emits_at_bind_emit; [other_line |].
  apply emits_at_bind_asks. rewrite Ho.
  apply emits_at_bind_emit; [other_line |].
  apply emits_at_bind_asks. rewrite Hs.
  apply emits_at_bind_emit; [other_line |].
  unfold cells, grid.
  destruct (Raveler.tileBounds offset size) as [[[stx sty] etx] ety] eqn:TB.
  destruct (tileBounds_small _ _ _ _ _ _ Hx Hy TB) as (Bsx & Bsy & Bex & Bey).
  apply emits_emits_at, emits_for. intros z [].
  apply sliceStep_progress; assumption.
Qed.

(** *** Commands and lines of a run without failure *)

Lemma addTile_yields env datasetName uuidStr offsetStr filename :
  imports_ok env ->
  yields command_of (Raveler.addTile datasetName uuidStr offsetStr filename)
    env (fun _ => True)
    [["dvid"; datasetName; "server-add"; uuidStr; offsetStr; filename]].
Proof.
  intros Hok.
  rewrite <- (app_nil_r [[_; _; _; _; _; _]]).
  unfold Raveler.addTile. eapply yields_bind.
  - apply yields_import; [exact Hok | reflexivity].
  - intros err ->. apply yields_ret. exact I.
Qed.

Lemma Raveler_tileStep_yields env flags uuidStr datasetName tilesDir z
    tileY tileX numTiles :
  imports_ok env ->
  int32 (tileX * 1024) -> int32 (tileY * 1024) ->
  yields command_of
    (Raveler.tileStep flags uuidStr datasetName tilesDir z tileY tileX
       numTiles)
    env (fun _ => True)
    (tile_calls flags uuidStr datasetName tilesDir z tileY tileX).
Proof.
  intros Hok Hx Hy. unfold Raveler.tileStep, tile_calls, mul32,
    Raveler.tileSize.
  rewrite !wrap32_small by assumption. rewrite Sprintf_offset.
  destruct flags as [[|] [|] h];
    cbn [when Raveler.loadSuperpixels Raveler.loadGrayscale];
    (eapply yields_change;
     [ repeat first
         [ apply yields_bind_ret
         | eapply yields_bind; [apply addTile_yields, Hok | intros _ _]
         | apply yields_ret; exact I ]
     | reflexivity ]).
Qed.

(** With neither flag set a tile step does nothing to the outside. *)
Lemma tileStep_neither {O} (f : event -> list O) env flags uuidStr
    datasetName tilesDir z tileY tileX numTiles :
  Raveler.loadSuperpixels flags = false ->
  Raveler.loadGrayscale flags = false ->
  yields f
    (Raveler.tileStep flags uuidStr datasetName tilesDir z tileY tileX
       numTiles)
    env (fun _ => True) [].
Proof.
  intros Hs Hg. unfold Raveler.tileStep. rewrite Hs, Hg. cbn [when].
  apply yields_bind_ret, yields_bind_ret, yields_ret. exact I.
Qed.

(** A slice, when its tile steps yield: rows outside, columns inside,
    then the progress line with the number of cells. *)
Lemma sliceStep_yields {O} (f : event -> list O) env fuel flags uuidStr
    datasetName tilesDir stx sty etx ety z (h : Z -> Z -> list O) :
  (- 2 ^ 21 <= stx < 2 ^ 21) -> (- 2 ^ 21 <= sty < 2 ^ 21) ->
  (- 2 ^ 21 <= etx < 2 ^ 21) -> (- 2 ^ 21 <= ety < 2 ^ 21) ->
  (Z.to_nat (2 ^ 22) < fuel)%nat ->
  (forall tileY tileX numTiles,
      sty <= tileY <= ety -> stx <= tileX <= etx ->
      yields f
        (Raveler.tileStep flags uuidStr datasetName tilesDir z tileY tileX
           numTiles)
        env (fun _ => True) (h tileY tileX)) ->
  yields f
    (Raveler.sliceStep fuel flags uuidStr datasetName tilesDir
       stx sty etx ety z)
    env (fun _ => True)
    (flat_map (fun tileY => flat_map (h tileY) (Zrange stx etx))
       (Zrange sty ety)
     ++ f (added
             (Z.of_nat (length (list_prod (Zrange sty ety) (Zrange stx etx))))
             datasetName z)).
Proof.
  intros Hsx Hsy Hex Hey Hf Ht. unfold Raveler.sliceStep.
  assert (B : forall v, - 2 ^ 21 <= v < 2 ^ 21 -> int32 v /\ v < MaxInt32).
  { intros v Hv. unfold int32, MaxInt32.
    change (2 ^ 21) with 2097152 in Hv.
    change (2 ^ 31) with 2147483648. lia. }
  assert (F : forall lo hi,
             - 2 ^ 21 <= lo < 2 ^ 21 -> - 2 ^ 21 <= hi < 2 ^ 21 ->
             (Z.to_nat (hi - lo + 1) < fuel)%nat).
  { intros lo hi Hlo Hhi. change (2 ^ 22) with 4194304 in Hf.
    change (2 ^ 21) with 2097152 in Hlo, Hhi. lia. }
  eapply yields_bind
    with (Q := fun c =>
                 c = Z.of_nat
                       (length (list_prod (Zrange sty ety) (Zrange stx etx)))).
  - eapply yields_returns; [| apply tile_loops_return; assumption].
    eapply yields_ext.
    { intros n. apply for_le_unroll; [apply F | apply B | apply B];
        assumption. }
    apply yields_foldM. intros tileY numTiles Hy. apply Zrange_In in Hy.
    eapply yields_ext.
    { intros n. apply for_le_unroll; [apply F | apply B | apply B];
        assumption. }
    apply yields_foldM. intros tileX numTiles' Hx. apply Zrange_In in Hx.
    apply Ht; assumption.
  - intros c ->. apply yields_emit.
Qed.

End TileImporter.

Section TileImporterRun.
Import Go Eff Spec Inv.
Local Open Scope list_scope.

Lemma flat_map_nothing {A B} (l : list A) : flat_map (fun _ => @nil B) l = [].
Proof. induction l as [| a l IH]; cbn; auto. Qed.

Lemma commands_nothing (t : list event) :
  Forall (fun e => command_of e = []) t -> commands t = [].
Proof.
  induction 1 as [| e t He _ IH]; [reflexivity |].
  unfold commands in *. cbn [flat_map]. rewrite He, IH. reflexivity.
Qed.

(** With neither flag set no command is run, whatever the fuel. *)
Lemma main_neither_no_command fuel programName flags args :
  Raveler.loadSuperpixels flags = false ->
  Raveler.loadGrayscale flags = false ->
  emits (fun e => command_of e = [])
    (Raveler.main fuel programName flags args).
Proof.
  intros Hs Hg.
  unfold Raveler.main, Raveler.sliceStep, Raveler.tileStep, Raveler.usage.
  rewrite Hs, Hg. cbn [when].
  clean reflexivity.
Qed.

(** The whole run with neither flag set: the header and one progress
    line for each slice. *)
Lemma main_neither_yields env fuel programName flags uuidStr datasetName
    tilesDir offsetStr sizeStr more offset size :
  VoxelCoord env offsetStr = Ok offset ->
  Point3d env sizeStr = Ok size ->
  int32 (fst (fst offset)) -> int32 (snd (fst offset)) ->
  int32 (snd offset) -> snd (Raveler.AddSize offset size) < MaxInt32 ->
  Raveler.showHelp flags = false ->
  Raveler.loadSuperpixels flags = false ->
  Raveler.loadGrayscale flags = false ->
  (Z.to_nat (2 ^ 22) < fuel)%nat ->
  (Z.to_nat (snd (Raveler.AddSize offset size) - snd offset + 1) < fuel)%nat ->
  yields every
    (Raveler.main fuel programName flags
       (uuidStr :: datasetName :: tilesDir :: offsetStr :: sizeStr :: more))
    env (fun _ => True)
    (header tilesDir offset size
     ++ map (added (cells offset size) datasetName)
          (Zrange (snd offset) (snd (Raveler.AddSize offset size)))).
Proof.
  intros Ho Hsz Hx Hy Hz He Hh Hs Hg Hf Hfz. unfold Raveler.main.
  rewrite Hh. cbn [length Nat.ltb Nat.leb index nth_error].
  do 5 apply yields_bind_ret.
  change (header tilesDir offset size
          ++ map (added (cells offset size) datasetName)
               (Zrange (snd offset) (snd (Raveler.AddSize offset size))))
    with (every (Println [VStr "Tiles directory:"; VStr tilesDir])
          ++ every (Printf ("Offset: %s" ++ nl)%string [Raveler.point offset])
          ++ every (Printf ("Size: %s" ++ nl)%string [Raveler.point size])
          ++ map (added (cells offset size) datasetName)
               (Zrange (snd offset) (snd (Raveler.AddSize offset size)))).
  apply yields_bind_emit.
  apply yields_bind_asks. rewrite Ho. apply yields_bind_emit.
  apply yields_bind_asks. rewrite Hsz. apply yields_bind_emit.
  unfold cells, grid.
  destruct (Raveler.tileBounds offset size) as [[[stx sty] etx] ety] eqn:TB.
  destruct (tileBounds_small _ _ _ _ _ _ Hx Hy TB)
    as (Bsx & Bsy & Bex & Bey).
  eapply yields_change.
  { eapply yields_ext.
    { intros n. apply for_le_unroll; assumption. }
    apply yields_foldM. intros z [] _.
    apply sliceStep_yields with (h := fun _ _ => []); try assumption.
    intros. apply tileStep_neither; assumption. }
  induction (Zrange (snd offset) (snd (Raveler.AddSize offset size)))
    as [| z l IH]; [reflexivity |].
  cbn [flat_map map]. rewrite IH.
  rewrite (flat_map_ext _ (fun _ => [])) by (intros; apply flat_map_nothing).
  rewrite flat_map_nothing. reflexivity.
Qed.

(** C10: every progress line of the tile importer carries the number of
    (row, column) cells of the tile grid, whichever of the two flags are
    set; with neither flag set no import call is made, and the run still
    prints that count for every slice. *)
Theorem progress_count_is_grid env programName flags uuidStr datasetName
    tilesDir offsetStr sizeStr more offset size :
  VoxelCoord env offsetStr = Ok offset ->
  Point3d env sizeStr = Ok size ->
  int32 (fst (fst offset)) -> int32 (snd (fst offset)) ->
  let main fuel :=
    run (Raveler.main fuel programName flags
           (uuidStr :: datasetName :: tilesDir :: offsetStr :: sizeStr
              :: more)) env in
  (forall fuel numTiles name z,
      In (added numTiles name z) (snd (main fuel)) ->
      numTiles = cells offset size)
  /\ (Raveler.loadSuperpixels flags = false ->
      Raveler.loadGrayscale flags = false ->
      (forall fuel, commands (snd (main fuel)) = [])
      /\ (Raveler.showHelp flags = false ->
          int32 (snd offset) ->
          snd (Raveler.AddSize offset size) < MaxInt32 ->
          exists enough, forall fuel,
            (enough <= fuel)%nat ->
            main fuel
            = (Ret tt,
               header tilesDir offset size
               ++ map (added (cells offset size) datasetName)
                    (Zrange (snd offset)
                       (snd (Raveler.AddSize offset size)))))).
Proof.
  intros Ho Hsz Hx Hy main. split; [| intros Hs Hg; split].
  - intros fuel numTiles name z Hin.
    pose proof (main_progress env fuel programName flags uuidStr datasetName
                  tilesDir offsetStr sizeStr more offset size Ho Hsz Hx Hy
                  0%nat) as P.
    unfold main, run in Hin.
    destruct (Raveler.main _ _ _ _ env 0%nat) as [[r t] n']. cbn in P, Hin.
    rewrite Forall_forall in P. exact (P _ Hin numTiles name z eq_refl).
  - intros fuel. apply commands_nothing. unfold main, run.
    pose proof (main_neither_no_command fuel programName flags
                  (uuidStr :: datasetName :: tilesDir :: offsetStr
                     :: sizeStr :: more) Hs Hg env 0%nat) as P.
    destruct (Raveler.main _ _ _ _ env 0%nat) as [[r t] n']. exact P.
  - intros Hh Hz He.
    exists (Datatypes.S
              (Z.to_nat (2 ^ 22)
               + Z.to_nat (snd (Raveler.AddSize offset size) - snd offset + 1))).
    intros fuel Hfuel.
    destruct (yields_run every env _ _ _
                (main_neither_yields env fuel programName flags uuidStr
                   datasetName tilesDir offsetStr sizeStr more offset size
                   Ho Hsz Hx Hy Hz He Hh Hs Hg ltac:(lia) ltac:(lia)))
      as ([] & Er & _ & Et).
    rewrite flat_map_every in Et. unfold main.
    destruct (run _ env) as [r t]. cbn in Er, Et. subst. reflexivity.
Qed.

Lemma progress_count_is_grid_witness :
  let main fuel :=
    run (Raveler.main fuel "raveler" Sample.neither Sample.raveler_args)
      (Sample.env Sample.never) in
  (forall fuel numTiles name z,
      In (added numTiles name z) (snd (main fuel)) ->
      numTiles = cells (1000, 2000, 5) (1500, 500, 1))
  /\ (Raveler.loadSuperpixels Sample.neither = false ->
      Raveler.loadGrayscale Sample.neither = false ->
      (forall fuel, commands (snd (main fuel)) = [])
      /\ (Raveler.showHelp Sample.neither = false ->
          int32 (snd (1000, 2000, 5)) ->
          snd (Raveler.AddSize (1000, 2000, 5) (1500, 500, 1)) < MaxInt32 ->
          exists enough, forall fuel,
            (enough <= fuel)%nat ->
            main fuel
            = (Ret tt,
               header "/data/tiles" (1000, 2000, 5) (1500, 500, 1)
               ++ map (added (cells (1000, 2000, 5) (1500, 500, 1))
                         "grayscale")
                    (Zrange (snd (1000, 2000, 5))
                       (snd (Raveler.AddSize (1000, 2000, 5)
                               (1500, 500, 1))))))).
Proof.
  apply (progress_count_is_grid (Sample.env Sample.never) "raveler"
           Sample.neither "28f1a9c4" "grayscale" "/data/tiles" "1000,2000,5"
           "1500,500,1" [] (1000, 2000, 5) (1500, 500, 1));
    try reflexivity; unfold int32; cbn [fst snd]; lia.
Defined.

End TileImporterRun.

(** ** Tile bounds *)

Section TileBounds.
Import Go Eff Spec Inv.
Local Open Scope list_scope.

Lemma tileBounds_floor ox oy oz sx sy sz :
  0 <= ox -> 0 <= oy -> 0 <= sx -> 0 <= sy ->
  ox + sx <= MaxInt32 -> oy + sy <= MaxInt32 ->
  Raveler.tileBounds (ox, oy, oz) (sx, sy, sz)
  = (ox / 1024, oy / 1024, (ox + sx) / 1024, (oy + sy) / 1024).
Proof.
  intros. unfold Raveler.tileBounds, Raveler.AddSize, add32,
    Raveler.tileSize.
  rewrite !wrap32_small by (unfold int32, MaxInt32 in *; lia).
  rewrite !quot32_floor by lia. reflexivity.
Qed.

Lemma floor_tile_small (a : Z) :
  0 <= a <= MaxInt32 -> 0 <= a / 1024 < 2 ^ 21.
Proof.
  unfold MaxInt32. intros H. split.
  - apply Z.div_pos; lia.
  - apply Z.div_lt_upper_bound; [lia |].
    change (2 ^ 21) with 2097152. lia.
Qed.

(** C3, amended: in the tile importer, for an offset and a size that are
    not negative and whose sum fits int32, the first tile on a horizontal
    axis is floor(offset/1024), the last one floor((offset+size)/1024),
    the first is at most the last, and a slice visits exactly the tiles
    from the first to the last, both included, rows outside; so a size
    below one tile still gives the covering tile.  In the converter the
    tiles of an axis are the indices from 0 up to, and without,
    floor(700/T). *)
Theorem tile_bounds_by_driver (ox oy oz sx sy sz tw th : Z) :
  0 <= ox -> 0 <= oy -> 0 <= sx -> 0 <= sy ->
  ox + sx <= MaxInt32 -> oy + sy <= MaxInt32 ->
  int32 tw -> int32 th -> tw <> 0 -> th <> 0 ->
  Raveler.tileBounds (ox, oy, oz) (sx, sy, sz)
  = (ox / 1024, oy / 1024, (ox + sx) / 1024, (oy + sy) / 1024)
  /\ ox / 1024 <= (ox + sx) / 1024
  /\ oy / 1024 <= (oy + sy) / 1024
  /\ In (ox / 1024) (Zrange (ox / 1024) ((ox + sx) / 1024))
  /\ In (oy / 1024) (Zrange (oy / 1024) ((oy + sy) / 1024))
  /\ (forall env fuel flags uuidStr datasetName tilesDir z,
        imports_ok env ->
        (Z.to_nat (2 ^ 22) < fuel)%nat ->
        yields command_of
          (Raveler.sliceStep fuel flags uuidStr datasetName tilesDir
             (ox / 1024) (oy / 1024) ((ox + sx) / 1024) ((oy + sy) / 1024) z)
          env (fun _ => True)
          (flat_map
             (fun tileY =>
                flat_map
                  (fun tileX =>
                     tile_calls flags uuidStr datasetName tilesDir z
                       tileY tileX)
                  (Zrange (ox / 1024) ((ox + sx) / 1024)))
             (Zrange (oy / 1024) ((oy + sy) / 1024))))
  /\ (forall env fuel k voxelProofDir uuidStr zmin zmax numTiles,
        imports_ok env ->
        int32 zmin -> zmax < MaxInt32 -> zmax - zmin <= MaxInt32 ->
        (700 < fuel)%nat -> (Z.to_nat (zmax - zmin + 1) < fuel)%nat ->
        yields command_of
          (VoxelProof.addTiles fuel k voxelProofDir uuidStr (zmin, zmax)
             (tw, th) (quot32 700 tw) (quot32 700 th) numTiles)
          env (fun _ => True)
          (pass_calls k voxelProofDir uuidStr zmin tw th (Zrange zmin zmax)
             (Zseq 0 (Z.to_nat (700 / th))) (Zseq 0 (Z.to_nat (700 / tw)))))
  /\ (forall i, In i (Zseq 0 (Z.to_nat (700 / tw))) <-> 0 <= i < 700 / tw)
  /\ (forall i, In i (Zseq 0 (Z.to_nat (700 / th))) <-> 0 <= i < 700 / th).
Proof.
  intros Hox Hoy Hsx Hsy Hx Hy Htw Hth Hwne Hhne.
  assert (Lx : ox / 1024 <= (ox + sx) / 1024) by (apply Z.div_le_mono; lia).
  assert (Ly : oy / 1024 <= (oy + sy) / 1024) by (apply Z.div_le_mono; lia).
  pose proof (floor_tile_small ox ltac:(lia)) as Bsx.
  pose proof (floor_tile_small oy ltac:(lia)) as Bsy.
  pose proof (floor_tile_small (ox + sx) ltac:(lia)) as Bex.
  pose proof (floor_tile_small (oy + sy) ltac:(lia)) as Bey.
  split; [apply tileBounds_floor; assumption |].
  split; [exact Lx | split; [exact Ly |]].
  split; [apply Zrange_In; lia |]. split; [apply Zrange_In; lia |].
  split; [| split; [| split]].
  - intros env fuel flags uuidStr datasetName tilesDir z Hok Hf.
    eapply yields_change.
    + apply sliceStep_yields
        with (h := fun tileY tileX =>
                     tile_calls flags uuidStr datasetName tilesDir z
                       tileY tileX);
        try lia.
      intros tileY tileX numTiles HY HX.
      apply Raveler_tileStep_yields; [exact Hok | |];
        unfold int32; change (2 ^ 21) with 2097152 in *;
        change (2 ^ 31) with 2147483648; lia.
    + cbn [command_of added]. apply app_nil_r.
  - intros env fuel k voxelProofDir uuidStr zmin zmax numTiles Hok Hzmin Hzmax
      Hspan Hf Hfz.
    apply addTiles_yields; assumption.
  - intros i. rewrite Zseq_In. lia.
  - intros i. rewrite Zseq_In. lia.
Qed.

Lemma tile_bounds_by_driver_witness :
  Raveler.tileBounds (1000, 2000, 5) (1500, 500, 1)
  = (1000 / 1024, 2000 / 1024, (1000 + 1500) / 1024, (2000 + 500) / 1024)
  /\ 1000 / 1024 <= (1000 + 1500) / 1024
  /\ 2000 / 1024 <= (2000 + 500) / 1024.
Proof.
  destruct (tile_bounds_by_driver 1000 2000 5 1500 500 1 100 100)
    as (B & Lx & Ly & _);
    try (unfold int32, MaxInt32; lia).
  exact (conj B (conj Lx Ly)).
Defined.

(** The counterexample to C3 as it is stated.  In the converter a tile
    edge of 1024 leaves floor(0/1024) = floor(700/1024) = 0 as the one
    covering tile of the claim, and no tile is imported; with a tile edge
    of 100 the tiles at x offset 600 are imported and the tile
    floor(700/100) = 7, at offset 700, is not.  In the tile importer the
    sum of the offset 2147483647 and the size 2000 wraps around, and the
    last tile lies before the first. *)
Lemma tile_bounds_counterexample :
  (0 / 1024 = 0 /\ (0 + 700) / 1024 = 0
   /\ offsets
        (commands
           (snd (run (VoxelProof.main 4 "convert" false
                        (Sample.converter_args "1024,1024"))
                   (Sample.env Sample.never))))
      = [])
  /\ ((0 + 700) / 100 = 7
      /\ existsb (String.eqb "600,0,0")
           (offsets
              (commands
                 (snd (run (VoxelProof.main 8 "convert" false
                              (Sample.converter_args "100,100"))
                         (Sample.env Sample.never)))))
         = true
      /\ existsb (String.eqb "700,0,0")
           (offsets
              (commands
                 (snd (run (VoxelProof.main 8 "convert" false
                              (Sample.converter_args "100,100"))
                         (Sample.env Sample.never)))))
         = false)
  /\ (Raveler.tileBounds (2147483647, 0, 0) (2000, 0, 0)
      = (2097151, 0, -2097150, 0)
      /\ ~ 2097151 <= -2097150).
Proof.
  split; [| split].
  - vm_compute. auto.
  - vm_compute. auto.
  - split; [vm_compute; reflexivity | lia].
Qed.

End TileBounds.

(** ** Whole runs of the tile importer *)

Section ImporterRun.
Import Go Eff Spec Inv More.
Local Open Scope list_scope.

(** A slice, with just the fuel its two loops need. *)
Lemma sliceStep_yields_fuel {O} (f : event -> list O) env fuel flags uuidStr
    datasetName tilesDir stx sty etx ety z (h : Z -> Z -> list O) :
  (- 2 ^ 21 <= stx < 2 ^ 21) -> (- 2 ^ 21 <= sty < 2 ^ 21) ->
  (- 2 ^ 21 <= etx < 2 ^ 21) -> (- 2 ^ 21 <= ety < 2 ^ 21) ->
  (Z.to_nat (ety - sty + 1) < fuel)%nat ->
  (Z.to_nat (etx - stx + 1) < fuel)%nat ->
  (forall tileY tileX numTiles,
      sty <= tileY <= ety -> stx <= tileX <= etx ->
      yields f
        (Raveler.tileStep flags uuidStr datasetName tilesDir z tileY tileX
           numTiles)
        env (fun _ => True) (h tileY tileX)) ->
  yields f
    (Raveler.sliceStep fuel flags uuidStr datasetName tilesDir
       stx sty etx ety z)
    env (fun _ => True)
    (flat_map (fun tileY => flat_map (h tileY) (Zrange stx etx))
       (Zrange sty ety)
     ++ f (added
             (Z.of_nat (length (list_prod (Zrange sty ety) (Zrange stx etx))))
             datasetName z)).
Proof.
  intros Hsx Hsy Hex Hey Hfy Hfx Ht. unfold Raveler.sliceStep.
  assert (B : forall v, - 2 ^ 21 <= v < 2 ^ 21 -> int32 v /\ v < MaxInt32).
  { intros v Hv. unfold int32, MaxInt32.
    change (2 ^ 21) with 2097152 in Hv.
    change (2 ^ 31) with 2147483648. lia. }
  eapply yields_bind
    with (Q := fun c =>
                 c = Z.of_nat
                       (length (list_prod (Zrange sty ety) (Zrange stx etx)))).
  - eapply yields_returns; [| apply tile_loops_return; assumption].
    eapply yields_ext.
    { intros n. apply for_le_unroll; [exact Hfy | apply B | apply B];
        assumption. }
    apply yields_foldM. intros tileY numTiles Hy. apply Zrange_In in Hy.
    eapply yields_ext.
    { intros n. apply for_le_unroll; [exact Hfx | apply B | apply B];
        assumption. }
    apply yields_foldM. intros tileX numTiles' Hx. apply Zrange_In in Hx.
    apply Ht; assumption.
  - intros c ->. apply yields_emit.
Qed.

(** X1: when no import fails, the tile importer imports slice after
    slice from the z of the offset to the z of the end voxel, both
    included, in each slice row after row and column after column between
    the tile bounds, the superpixel tile before the grayscale tile; the
    offset of a call is the corner of the tile and the slice itself, not
    counted from the first slice. *)
Theorem importer_import_calls env fuel programName flags uuidStr datasetName
    tilesDir offsetStr sizeStr more offset size stx sty etx ety :
  VoxelCoord env offsetStr = Ok offset ->
  Point3d env sizeStr = Ok size ->
  Raveler.showHelp flags = false ->
  imports_ok env ->
  int32 (fst (fst offset)) -> int32 (snd (fst offset)) ->
  int32 (snd offset) -> snd (Raveler.AddSize offset size) < MaxInt32 ->
  Raveler.tileBounds offset size = (stx, sty, etx, ety) ->
  (Z.to_nat (ety - sty + 1) < fuel)%nat ->
  (Z.to_nat (etx - stx + 1) < fuel)%nat ->
  (Z.to_nat (snd (Raveler.AddSize offset size) - snd offset + 1) < fuel)%nat ->
  let r :=
    run (Raveler.main fuel programName flags
           (uuidStr :: datasetName :: tilesDir :: offsetStr :: sizeStr
              :: more)) env in
  fst r = Ret tt
  /\ commands (snd r)
     = importer_calls flags uuidStr datasetName tilesDir
         (Zrange (snd offset) (snd (Raveler.AddSize offset size)))
         (Zrange sty ety) (Zrange stx etx).
Proof.
  intros Ho Hsz Hh Hok Hx Hy Hz He TB Hfy Hfx Hfz r.
  assert (Y : yields command_of
                (Raveler.main fuel programName flags
                   (uuidStr :: datasetName :: tilesDir :: offsetStr
                      :: sizeStr :: more))
                env (fun _ => True)
                (importer_calls flags uuidStr datasetName tilesDir
                   (Zrange (snd offset) (snd (Raveler.AddSize offset size)))
                   (Zrange sty ety) (Zrange stx etx))).
  { unfold Raveler.main. rewrite Hh.
    cbn [length Nat.ltb Nat.leb index nth_error].
    do 5 apply yields_bind_ret.
    apply yields_bind_quiet; [reflexivity |].
    apply yields_bind_asks. rewrite Ho.
    apply yields_bind_quiet; [reflexivity |].
    apply yields_bind_asks. rewrite Hsz.
    apply yields_bind_quiet; [reflexivity |].
    rewrite TB.
    destruct (tileBounds_small _ _ _ _ _ _ Hx Hy TB)
      as (Bsx & Bsy & Bex & Bey).
    eapply yields_ext.
    { intros n. apply for_le_unroll; assumption. }
    unfold importer_calls. apply yields_foldM. intros z [] _.
    eapply yields_change.
    - apply sliceStep_yields_fuel
        with (h := fun tileY tileX =>
                     tile_calls flags uuidStr datasetName tilesDir z
                       tileY tileX);
        try assumption.
      intros tileY tileX numTiles HY HX.
      apply Raveler_tileStep_yields; [exact Hok | |];
        unfold int32; change (2 ^ 21) with 2097152 in *;
        change (2 ^ 31) with 2147483648; lia.
    - cbn [command_of added]. apply app_nil_r. }
  apply yields_run in Y. destruct Y as ([] & Er & _ & Ec).
  split; assumption.
Qed.

Lemma importer_import_calls_witness :
  let r :=
    run (Raveler.main 4 "raveler" Sample.both
           Sample.raveler_args) (Sample.env Sample.never) in
  fst r = Ret tt
  /\ commands (snd r)
     = importer_calls Sample.both "28f1a9c4" "grayscale" "/data/tiles"
         (Zrange 5 (snd (Raveler.AddSize (1000, 2000, 5) (1500, 500, 1))))
         (Zrange 1 2) (Zrange 0 2).
Proof.
  apply (importer_import_calls (Sample.env Sample.never)
           4 "raveler" Sample.both "28f1a9c4"
           "grayscale" "/data/tiles" "1000,2000,5" "1500,500,1" []
           (1000, 2000, 5) (1500, 500, 1) 0 1 2 2);
    try reflexivity; try (unfold int32, MaxInt32; cbn [fst snd]; lia);
    try (intros n argv _; reflexivity);
    vm_compute; first [reflexivity | lia].
Defined.

End ImporterRun.

(** ** Tile file names do not collide *)

Section FileNames.
Import Go Eff Spec Inv More.

Lemma has_app c (a b : string) : has c (a ++ b) = has c a || has c b.
Proof.
  induction a as [| d a IH]; cbn; [reflexivity |].
  rewrite IH. apply orb_assoc.
Qed.

Lemma has_uint c d :
  numeral_char c = false -> has c (NilEmpty.string_of_uint d) = false.
Proof.
  intros H. unfold numeral_char in H. cbn [existsb] in H.
  repeat (apply orb_false_iff in H; destruct H as [? H]).
  induction d; cbn [NilEmpty.string_of_uint has]; rewrite ?IHd;
    try reflexivity; apply orb_false_iff; split; solve [assumption | reflexivity].
Qed.

Lemma has_fmt_d c z : numeral_char c = false -> has c (fmt_d z) = false.
Proof.
  intros H. pose proof (has_uint c) as U.
  assert (Z0 : Ascii.eqb c "0" = false).
  { unfold numeral_char in H. cbn [existsb] in H.
    apply orb_false_iff in H. apply H. }
  assert (M : Ascii.eqb c "-" = false).
  { unfold numeral_char in H. cbn [existsb] in H.
    repeat (apply orb_false_iff in H; destruct H as [? H]). assumption. }
  unfold fmt_d, NilZero.string_of_int, NilZero.string_of_uint.
  destruct (Z.to_int z) as [d | d]; destruct d; cbn [has];
    rewrite ?Z0, ?M; cbn [orb];
    try reflexivity; apply (U _ H).
Qed.

Lemma fmt_d_inj z z' : fmt_d z = fmt_d z' -> z = z'.
Proof.
  unfold fmt_d. intros H. apply DecimalZ.to_int_inj.
  assert (N : forall n, NilZero.int_of_string
                          (NilZero.string_of_int (Z.to_int n))
                        = Some (Z.to_int n)).
  { intros n. apply NilZero.isi; destruct n; cbn; try discriminate;
      intros E; injection E as E;
      exact (DecimalPos.Unsigned.to_uint_nonnil _ E). }
  pose proof (N z) as A. rewrite H, N in A. injection A as A. symmetry. exact A.
Qed.

(** Two texts that agree after a piece without [c], followed by [c]. *)
Lemma split_at c (a a' x x' : string) :
  has c a = false -> has c a' = false ->
  (a ++ String c x)%string = (a' ++ String c x')%string ->
  a = a' /\ x = x'.
Proof.
  revert a'. induction a as [| d a IH]; intros [| d' a'] Ha Ha' E;
    cbn in *.
  - injection E as E. auto.
  - injection E as E1 E2. subst d'. rewrite Ascii.eqb_refl in Ha'.
    discriminate.
  - injection E as E1 E2. subst d. rewrite Ascii.eqb_refl in Ha.
    discriminate.
  - injection E as E1 E2. subst d'.
    apply orb_false_iff in Ha, Ha'.
    destruct (IH a' (proj2 Ha) (proj2 Ha') E2) as [-> ->]. auto.
Qed.

Lemma tileFilename_eq (row col z : Z) (superpixel : bool) :
  0 <= z <= MaxInt32 ->
  Raveler.tileFilename row col z superpixel
  = ("1024/0/" ++ fmt_d row ++ "/" ++ fmt_d col ++ "/"
     ++ (if superpixel then "s" else "g") ++ "/"
     ++ (if (1000 <=? z)%Z
         then fmt_d (z / 1000 * 1000) ++ "/" ++ fmt_d z ++ ".png"
         else fmt_03d z ++ ".png"))%string.
Proof.
  intros Hz. unfold Raveler.tileFilename. rewrite Z.geb_leb.
  destruct (1000 <=? z)%Z eqn:E.
  - rewrite sliceDir_floor by exact Hz. destruct superpixel; reflexivity.
  - destruct superpixel; reflexivity.
Qed.

Lemma digit_inj a b : 0 <= a < 10 -> 0 <= b < 10 -> digit a = digit b -> a = b.
Proof.
  unfold digit. intros Ha Hb E.
  apply (f_equal nat_of_ascii) in E.
  rewrite !nat_ascii_embedding in E by lia. lia.
Qed.

Lemma three_digits_inj z z' :
  0 <= z < 1000 -> 0 <= z' < 1000 ->
  three_digits z = three_digits z' -> z = z'.
Proof.
  unfold three_digits. intros Hz Hz' E. injection E as E1 E2 E3.
  pose proof (Z.div_mod z 10 ltac:(lia)).
  pose proof (Z.div_mod z' 10 ltac:(lia)).
  pose proof (Z.div_mod (z / 10) 10 ltac:(lia)).
  pose proof (Z.div_mod (z' / 10) 10 ltac:(lia)).
  pose proof (Z.mod_pos_bound z 10 ltac:(lia)).
  pose proof (Z.mod_pos_bound z' 10 ltac:(lia)).
  pose proof (Z.mod_pos_bound (z / 10) 10 ltac:(lia)).
  pose proof (Z.mod_pos_bound (z' / 10) 10 ltac:(lia)).
  assert (D : forall v, 0 <= v < 1000 -> v / 10 / 10 = v / 100
                                         /\ 0 <= v / 100 < 10).
  { intros v Hv. rewrite Z.div_div by lia. split; [reflexivity |].
    split; [apply Z.div_pos; lia | apply Z.div_lt_upper_bound; lia]. }
  destruct (D z Hz) as [Q1 B1]. destruct (D z' Hz') as [Q2 B2].
  apply digit_inj in E1; [| lia | lia].
  apply digit_inj in E2; [| lia | lia].
  apply digit_inj in E3; [| lia | lia].
  lia.
Qed.

Lemma has_three_digits_fmt c z :
  numeral_char c = false -> 0 <= z -> has c (fmt_03d z) = false.
Proof.
  intros H Hz. unfold fmt_03d.
  rewrite (proj2 (Z.ltb_ge z 0) Hz). unfold pad_zeros.
  rewrite has_app, has_fmt_d by exact H.
  assert (Z0 : Ascii.eqb c "0" = false).
  { unfold numeral_char in H. cbn [existsb] in H.
    apply orb_false_iff in H. apply H. }
  induction (3 - String.length (fmt_d z))%nat as [| k IH]; cbn; auto.
  rewrite Z0. exact IH.
Qed.

(** X2: the file name of a tile tells the tile: for slices from 0 on, two
    tiles with the same relative file name have the same row, column,
    slice and kind. *)
Theorem tileFilename_injective (row col z row' col' z' : Z)
    (superpixel superpixel' : bool) :
  0 <= z <= MaxInt32 -> 0 <= z' <= MaxInt32 ->
  Raveler.tileFilename row col z superpixel
  = Raveler.tileFilename row' col' z' superpixel' ->
  row = row' /\ col = col' /\ z = z' /\ superpixel = superpixel'.
Proof.
  intros Hz Hz' E.
  rewrite !tileFilename_eq in E by assumption.
  assert (S : numeral_char "/" = false) by reflexivity.
  assert (P : numeral_char "." = false) by reflexivity.
  cbn [String.append] in E.
  injection E as E.
  apply split_at in E; [| apply has_fmt_d, S | apply has_fmt_d, S].
  destruct E as [Er E]. apply fmt_d_inj in Er.
  apply split_at in E; [| apply has_fmt_d, S | apply has_fmt_d, S].
  destruct E as [Ec E]. apply fmt_d_inj in Ec.
  assert (K : superpixel = superpixel' /\
              (if (1000 <=? z)%Z
               then fmt_d (z / 1000 * 1000) ++ "/" ++ fmt_d z ++ ".png"
               else fmt_03d z ++ ".png")%string
              = (if (1000 <=? z')%Z
                 then fmt_d (z' / 1000 * 1000) ++ "/" ++ fmt_d z' ++ ".png"
                 else fmt_03d z' ++ ".png")%string).
  { destruct superpixel, superpixel'; cbn [String.append] in E;
      injection E as E; try discriminate; auto. }
  destruct K as [Ek Ez].
  repeat split; try assumption.
  destruct (1000 <=? z)%Z eqn:C, (1000 <=? z')%Z eqn:C'.
  - cbn [String.append] in Ez.
    apply split_at in Ez; [| apply has_fmt_d, S | apply has_fmt_d, S].
    destruct Ez as [_ Ez].
    apply split_at in Ez; [| apply has_fmt_d, P | apply has_fmt_d, P].
    apply fmt_d_inj, Ez.
  - apply (f_equal (has "/")) in Ez. cbn [String.append] in Ez.
    rewrite !has_app in Ez. cbn [has] in Ez.
    rewrite Ascii.eqb_refl in Ez.
    rewrite has_three_digits_fmt in Ez by (assumption || lia).
    rewrite orb_true_r in Ez. cbn in Ez. discriminate.
  - apply (f_equal (has "/")) in Ez. cbn [String.append] in Ez.
    rewrite !has_app in Ez. cbn [has] in Ez.
    rewrite Ascii.eqb_refl in Ez.
    rewrite has_three_digits_fmt in Ez by (assumption || lia).
    rewrite orb_true_r in Ez. cbn in Ez. discriminate.
  - apply Z.leb_gt in C, C'. cbn [String.append] in Ez.
    apply split_at in Ez;
      [| apply has_three_digits_fmt; [exact P | lia]
       | apply has_three_digits_fmt; [exact P | lia]].
    destruct Ez as [Ez _].
    rewrite !three_digits_fmt in Ez by lia.
    apply three_digits_inj in Ez; lia.
Qed.

Lemma tileFilename_injective_witness :
  2 = 2 /\ 3 = 3 /\ 1500 = 1500 /\ false = false.
Proof.
  apply (tileFilename_injective 2 3 1500 2 3 1500 false false);
    try (unfold MaxInt32; lia).
  reflexivity.
Defined.

End FileNames.

(** ** Runs that stop *)

Section Stops.
Import Go Eff Spec Inv More.
Local Open Scope list_scope.

Lemma stops_exit {A O} (f : event -> list O) env code :
  stops f (@exit A code) env (Exits code) [].
Proof. intros n. exists [], n. auto. Qed.

Lemma stops_panic {A O} (f : event -> list O) env msg :
  stops f (@panic A msg) env (Panics msg) [].
Proof. intros n. exists [], n. auto. Qed.

Lemma stops_bind {A B O} (f : event -> list O) env (m : M A) (k : A -> M B)
    (Q : A -> Prop) s o1 o2 :
  yields f m env Q o1 ->
  (forall a, Q a -> stops f (k a) env s o2) ->
  stops f (bind m k) env s (o1 ++ o2).
Proof.
  intros Hm Hk n. destruct (Hm n) as (a & t & n' & E & Ha & Ho).
  destruct (Hk a Ha n') as (t' & n'' & E' & Ho').
  exists (t ++ t'), n''. split.
  - eapply bind_Ret; eassumption.
  - rewrite flat_map_app, Ho, Ho'. reflexivity.
Qed.

Lemma stops_bind_ret {A B O} (f : event -> list O) env (a : A)
    (k : A -> M B) s o :
  stops f (k a) env s o -> stops f (bind (ret a) k) env s o.
Proof.
  intros H. change o with ([] ++ o).
  apply stops_bind with (Q := fun v => v = a).
  - apply yields_ret. reflexivity.
  - intros v ->. exact H.
Qed.

Lemma stops_bind_asks {A B O} (f : event -> list O) env (g : Env -> A)
    (k : A -> M B) s o :
  stops f (k (g env)) env s o -> stops f (bind (asks g) k) env s o.
Proof.
  intros H. change o with ([] ++ o).
  apply stops_bind with (Q := fun v => v = g env).
  - apply yields_asks. reflexivity.
  - intros v ->. exact H.
Qed.

Lemma stops_bind_emit {B O} (f : event -> list O) env e (k : unit -> M B)
    s o :
  stops f (k tt) env s o -> stops f (bind (emit e) k) env s (f e ++ o).
Proof.
  intros H. apply stops_bind with (Q := fun _ => True).
  - apply yields_emit.
  - intros [] _. exact H.
Qed.

Lemma stops_first {A B O} (f : event -> list O) env (m : M A) (k : A -> M B)
    s o :
  stops f m env s o -> stops f (bind m k) env s o.
Proof.
  intros H n. destruct (H n) as (t & n' & E & Ho).
  exists t, n'. split; [| exact Ho].
  unfold bind. rewrite E. destruct s; reflexivity.
Qed.

Lemma stops_log_Fatal {A O} (f : event -> list O) env args :
  stops f (@log_Fatal A args) env (Exits 1) (f (Log args)).
Proof.
  unfold log_Fatal. rewrite <- (app_nil_r (f _)).
  apply stops_bind_emit, stops_exit.
Qed.

Lemma stops_log_Fatalln {A O} (f : event -> list O) env args :
  stops f (@log_Fatalln A args) env (Exits 1) (f (Logln args)).
Proof.
  unfold log_Fatalln. rewrite <- (app_nil_r (f _)).
  apply stops_bind_emit, stops_exit.
Qed.

(** A deferred call runs when the body panics, not when it exits. *)
Lemma stops_defer_panic {A B O} (f : event -> list O) env (d : M B)
    (body : M A) (R : B -> Prop) msg o1 o2 :
  stops f body env (Panics msg) o1 -> yields f d env R o2 ->
  stops f (defer d body) env (Panics msg) (o1 ++ o2).
Proof.
  intros Hb Hd n. destruct (Hb n) as (t & n' & E & Ho).
  destruct (Hd n') as (b & t' & n'' & E' & _ & Ho').
  exists (t ++ t'), n''. unfold defer. cbn [stopped] in *. rewrite E, E'.
  split; [reflexivity |]. rewrite flat_map_app, Ho, Ho'. reflexivity.
Qed.

Lemma stops_defer_exit {A B O} (f : event -> list O) env (d : M B)
    (body : M A) code o :
  stops f body env (Exits code) o ->
  stops f (defer d body) env (Exits code) o.
Proof.
  intros Hb n. destruct (Hb n) as (t & n' & E & Ho).
  exists t, n'. unfold defer. cbn [stopped] in *. rewrite E. auto.
Qed.

Lemma stops_change {A O} (f : event -> list O) env (m : M A) s o o' :
  stops f m env s o' -> o' = o -> stops f m env s o.
Proof. intros H <-. exact H. Qed.

Lemma stops_run {A O} (f : event -> list O) env (m : M A) s o :
  stops f m env s o ->
  fst (run m env) = stopped s /\ flat_map f (snd (run m env)) = o.
Proof.
  intros H. destruct (H 0%nat) as (t & n' & E & Ho).
  unfold run. rewrite E. auto.
Qed.

End Stops.

(** ** Errors before the loops *)

Section EarlyErrors.
Import Go Eff Spec Inv More.
Local Open Scope list_scope.

Ltac sstep :=
  first [ apply stops_bind_ret | apply stops_bind_asks
        | apply stops_bind_emit ].

(** X3: the tile importer stops on a malformed offset or size before any
    command is run: the parse error is logged and the exit status is 1. *)
Theorem importer_parse_error_fatal env fuel programName flags uuidStr
    datasetName tilesDir offsetStr sizeStr more e :
  Raveler.showHelp flags = false ->
  (VoxelCoord env offsetStr = Err e ->
   run (Raveler.main fuel programName flags
          (uuidStr :: datasetName :: tilesDir :: offsetStr :: sizeStr
             :: more)) env
   = (Exit 1,
      [Println [VStr "Tiles directory:"; VStr tilesDir]; Log [VStr e]]))
  /\ (forall offset,
        VoxelCoord env offsetStr = Ok offset ->
        Point3d env sizeStr = Err e ->
        run (Raveler.main fuel programName flags
               (uuidStr :: datasetName :: tilesDir :: offsetStr :: sizeStr
                  :: more)) env
        = (Exit 1,
           [Println [VStr "Tiles directory:"; VStr tilesDir];
            Printf ("Offset: %s" ++ nl)%string [Raveler.point offset];
            Log [VStr e]])).
Proof.
  intros Hh.
  assert (G : forall o,
             stops every
               (Raveler.main fuel programName flags
                  (uuidStr :: datasetName :: tilesDir :: offsetStr
                     :: sizeStr :: more)) env (Exits 1) o ->
             run (Raveler.main fuel programName flags
                    (uuidStr :: datasetName :: tilesDir :: offsetStr
                       :: sizeStr :: more)) env = (Exit 1, o)).
  { intros o H. apply stops_run in H. rewrite flat_map_every in H.
    destruct (run _ env) as [r t]. cbn in H. destruct H as [-> ->].
    reflexivity. }
  split.
  - intros Ho. apply G. unfold Raveler.main. rewrite Hh.
    cbn [length Nat.ltb Nat.leb index nth_error].
    do 5 sstep. apply (stops_bind_emit every). sstep. rewrite Ho.
    apply stops_log_Fatal.
  - intros offset Ho Hs. apply G. unfold Raveler.main. rewrite Hh.
    cbn [length Nat.ltb Nat.leb index nth_error].
    do 5 sstep. apply (stops_bind_emit every). sstep. rewrite Ho.
    apply (stops_bind_emit every). sstep. rewrite Hs.
    apply stops_log_Fatal.
Qed.

Lemma importer_parse_error_fatal_witness :
  run (Raveler.main 3 "raveler" Sample.both
         ["28f1a9c4"; "grayscale"; "/data/tiles"; "1000;2000"; "1500,500,1"])
    (Sample.env Sample.never)
  = (Exit 1,
     [Println [VStr "Tiles directory:"; VStr "/data/tiles"];
      Log [VStr "illegal point"]]).
Proof.
  apply (importer_parse_error_fatal (Sample.env Sample.never) 3 "raveler"
           Sample.both "28f1a9c4" "grayscale" "/data/tiles" "1000;2000"
           "1500,500,1" [] "illegal point"); reflexivity.
Defined.

End EarlyErrors.

(** ** Errors of the converter before its passes *)

Section ConverterErrors.
Import Go Eff Spec Inv More.
Local Open Scope list_scope.

Ltac sstep :=
  first [ apply stops_bind_ret | apply stops_bind_asks
        | apply stops_bind_emit ].

Lemma stops_every_run {A} (m : M A) env code o :
  stops every m env (Exits code) o -> run m env = (Exit code, o).
Proof.
  intros H. apply stops_run in H. rewrite flat_map_every in H.
  destruct (run m env) as [r t]. cbn in H. destruct H as [-> ->].
  reflexivity.
Qed.

(** X4: the converter stops on a malformed z range or tile size before
    it launches any process: the parse error is logged and the exit
    status is 1. *)
Theorem converter_parse_error_fatal env fuel programName voxelProofDir
    zrangeStr tileSizeStr outputDir more e :
  (Point2d env zrangeStr = Err e ->
   run (VoxelProof.main fuel programName false
          (voxelProofDir :: zrangeStr :: tileSizeStr :: outputDir :: more))
     env
   = (Exit 1,
      [Println [VStr "VoxelProof data directory:"; VStr voxelProofDir];
       Log [VStr e]]))
  /\ (forall zrange,
        Point2d env zrangeStr = Ok zrange ->
        Point2d env tileSizeStr = Err e ->
        run (VoxelProof.main fuel programName false
               (voxelProofDir :: zrangeStr :: tileSizeStr :: outputDir
                  :: more)) env
        = (Exit 1,
           [Println [VStr "VoxelProof data directory:"; VStr voxelProofDir];
            Printf ("Z range %d -> %d" ++ nl)%string
              [VInt (fst zrange); VInt (snd zrange)];
            Log [VStr e]])).
Proof.
  split.
  - intros Hz. apply stops_every_run. unfold VoxelProof.main.
    cbn [length Nat.ltb Nat.leb index nth_error].
    do 4 sstep. apply (stops_bind_emit every). sstep. rewrite Hz.
    apply stops_log_Fatal.
  - intros zrange Hz Ht. apply stops_every_run. unfold VoxelProof.main.
    cbn [length Nat.ltb Nat.leb index nth_error].
    do 4 sstep. apply (stops_bind_emit every). sstep. rewrite Hz.
    apply (stops_bind_emit every). sstep. rewrite Ht.
    apply stops_log_Fatal.
Qed.

Lemma converter_parse_error_fatal_witness :
  run (VoxelProof.main 4 "convert" false
         ["/data/vp"; "0-2"; "350,350"; "/data/out"])
    (Sample.env Sample.never)
  = (Exit 1,
     [Println [VStr "VoxelProof data directory:"; VStr "/data/vp"];
      Log [VStr "illegal point"]]).
Proof.
  apply (converter_parse_error_fatal (Sample.env Sample.never) 4 "convert"
           "/data/vp" "0-2" "350,350" "/data/out" [] "illegal point");
    reflexivity.
Defined.

(** The converter up to the root version, when its arguments parse. *)
Lemma main_to_init {O} (f : event -> list O) env fuel programName
    voxelProofDir zrangeStr tileSizeStr outputDir more zrange tileSize s o :
  Point2d env zrangeStr = Ok zrange ->
  Point2d env tileSizeStr = Ok tileSize ->
  stops f (launch fuel voxelProofDir outputDir zrange tileSize)
    env s o ->
  stops f
    (VoxelProof.main fuel programName false
       (voxelProofDir :: zrangeStr :: tileSizeStr :: outputDir :: more))
    env s
    (flat_map f (converter_header voxelProofDir outputDir zrange tileSize)
     ++ o).
Proof.
  intros Hz Ht H. unfold VoxelProof.main.
  cbn [length Nat.ltb Nat.leb index nth_error].
  do 4 sstep.
  unfold converter_header. cbn [flat_map]. rewrite <- !app_assoc.
  apply stops_bind_emit. sstep. rewrite Hz.
  apply stops_bind_emit. sstep. rewrite Ht.
  do 2 apply stops_bind_emit. cbn [app]. exact H.
Qed.

Lemma initDatastore_yields {O} (f : event -> list O) env outputDir before
    line after token :
  StdoutPipe_err env (init_cmd outputDir) = None ->
  Start_err env (init_cmd outputDir) = None ->
  stdout_lines env (init_cmd outputDir) = before ++ line :: after ->
  Forall (fun l => forall t, ~ uuid_line l t) before ->
  uuid_line line token ->
  yields f (VoxelProof.initDatastore outputDir) env (fun u => u = token)
    (flat_map f [StdoutPipe (init_cmd outputDir) None;
                 Start (init_cmd outputDir) None]).
Proof.
  intros Hp Hs Hl Hb Hu n. eexists _, _, _.
  split; [eapply initDatastore_found; eassumption |].
  split; reflexivity.
Qed.

(** X5: when the init command cannot be piped or started, or the server
    cannot be started, the converter logs the error and exits with
    status 1; no dataset, import or shutdown command is run, and in the
    first two cases the server is not launched. *)
Theorem converter_launch_error_fatal env fuel programName voxelProofDir
    zrangeStr tileSizeStr outputDir more zrange tileSize e :
  Point2d env zrangeStr = Ok zrange ->
  Point2d env tileSizeStr = Ok tileSize ->
  let r :=
    run (VoxelProof.main fuel programName false
           (voxelProofDir :: zrangeStr :: tileSizeStr :: outputDir :: more))
      env in
  let header := converter_header voxelProofDir outputDir zrange tileSize in
  (StdoutPipe_err env (init_cmd outputDir) = Some e ->
   r = (Exit 1,
        header ++ [StdoutPipe (init_cmd outputDir) (Some e); Log [VStr e]]))
  /\ (StdoutPipe_err env (init_cmd outputDir) = None ->
      Start_err env (init_cmd outputDir) = Some e ->
      r = (Exit 1,
           header ++ [StdoutPipe (init_cmd outputDir) None;
                      Start (init_cmd outputDir) (Some e); Log [VStr e]]))
  /\ (forall before line after uuidStr,
        StdoutPipe_err env (init_cmd outputDir) = None ->
        Start_err env (init_cmd outputDir) = None ->
        stdout_lines env (init_cmd outputDir) = before ++ line :: after ->
        Forall (fun l => forall t, ~ uuid_line l t) before ->
        uuid_line line uuidStr ->
        Start_err env (serve_cmd outputDir) = Some e ->
        r = (Exit 1,
             header ++ [StdoutPipe (init_cmd outputDir) None;
                        Start (init_cmd outputDir) None;
                        Printf ("Initialized datastore with root version %s."
                                ++ nl)%string [VStr uuidStr];
                        Start (serve_cmd outputDir) (Some e);
                        Log [VStr e]])).
Proof.
  intros Hz Ht r header. subst r header.
  assert (G : forall o,
             stops every
               (launch fuel voxelProofDir outputDir zrange tileSize) env
               (Exits 1) o ->
             run (VoxelProof.main fuel programName false
                    (voxelProofDir :: zrangeStr :: tileSizeStr :: outputDir
                       :: more)) env
             = (Exit 1,
                converter_header voxelProofDir outputDir zrange tileSize
                ++ o)).
  { intros o H. apply stops_every_run.
    rewrite <- (flat_map_every (converter_header _ _ _ _)).
    eapply main_to_init; eassumption. }
  unfold init_cmd, serve_cmd, launch in *.
  split; [| split].
  - intros Hp. apply G. apply stops_first.
    unfold VoxelProof.initDatastore. sstep. rewrite Hp.
    apply (stops_bind_emit every). apply stops_log_Fatal.
  - intros Hp Hs. apply G. apply stops_first.
    unfold VoxelProof.initDatastore. sstep. rewrite Hp.
    apply (stops_bind_emit every). sstep. rewrite Hs.
    apply (stops_bind_emit every). apply stops_log_Fatal.
  - intros before line after uuidStr Hp Hs Hl Hb Hu Hserve. apply G.
    eapply stops_change.
    + eapply stops_bind.
      * eapply (initDatastore_yields every); eassumption.
      * intros u ->. apply stops_bind_emit. sstep. rewrite Hserve.
        apply stops_bind_emit. apply stops_log_Fatal.
    + reflexivity.
Qed.

Lemma converter_launch_error_fatal_witness :
  run (VoxelProof.main 4 "convert" false (Sample.converter_args "350,350"))
    env_no_server
  = (Exit 1,
     converter_header "/data/vp" "/data/out" (0, 2) (350, 350)
     ++ [StdoutPipe (init_cmd "/data/out") None;
         Start (init_cmd "/data/out") None;
         Printf ("Initialized datastore with root version %s." ++ nl)%string
           [VStr "28f1a9c4"];
         Start (serve_cmd "/data/out")
           (Some "fork/exec: resource temporarily unavailable"%string);
         Log [VStr "fork/exec: resource temporarily unavailable"]]).
Proof.
  apply (proj2 (proj2
           (converter_launch_error_fatal env_no_server 4 "convert" "/data/vp"
              "0,2" "350,350" "/data/out" [] (0, 2) (350, 350)
              "fork/exec: resource temporarily unavailable"
              eq_refl eq_refl))
           ["Initializing datastore"] "Root node UUID: 28f1a9c4" []
           "28f1a9c4");
    try reflexivity.
  constructor; [| constructor]. intros t H. discriminate H.
Defined.

(** The converter from the root version on. *)
Lemma launch_with {O} (f : event -> list O) env fuel voxelProofDir outputDir
    zrange tileSize before line after uuidStr s o :
  StdoutPipe_err env (init_cmd outputDir) = None ->
  Start_err env (init_cmd outputDir) = None ->
  stdout_lines env (init_cmd outputDir) = before ++ line :: after ->
  Forall (fun l => forall t, ~ uuid_line l t) before ->
  uuid_line line uuidStr ->
  Start_err env (serve_cmd outputDir) = None ->
  stops f (VoxelProof.convert fuel voxelProofDir uuidStr zrange tileSize)
    env s o ->
  stops f (launch fuel voxelProofDir outputDir zrange tileSize) env s
    (flat_map f
       [StdoutPipe (init_cmd outputDir) None;
        Start (init_cmd outputDir) None;
        Printf ("Initialized datastore with root version %s." ++ nl)%string
          [VStr uuidStr];
        Start (serve_cmd outputDir) None;
        Println [VStr "Making sure DVID server has started..."];
        Sleep 3]
     ++ o).
Proof.
  intros Hp Hs Hl Hb Hu Hserve H. unfold launch.
  eapply stops_change.
  - eapply stops_bind.
    + eapply (initDatastore_yields f); eassumption.
    + intros u ->. apply stops_bind_emit. sstep.
      fold (serve_cmd outputDir). rewrite Hserve.
      do 3 apply stops_bind_emit. exact H.
  - cbn [flat_map]. rewrite <- !app_assoc. reflexivity.
Qed.

(** X6: a tile size with a zero width or height makes the converter
    panic on the division that counts the tiles, after the server was
    started and the two datasets were created; the deferred shutdown call
    runs all the same. *)
Theorem zero_tile_size_panics env fuel programName voxelProofDir zrangeStr
    tileSizeStr outputDir more zrange tw th before line after uuidStr :
  Point2d env zrangeStr = Ok zrange ->
  Point2d env tileSizeStr = Ok (tw, th) ->
  StdoutPipe_err env (init_cmd outputDir) = None ->
  Start_err env (init_cmd outputDir) = None ->
  stdout_lines env (init_cmd outputDir) = before ++ line :: after ->
  Forall (fun l => forall t, ~ uuid_line l t) before ->
  uuid_line line uuidStr ->
  Start_err env (serve_cmd outputDir) = None ->
  tw = 0 \/ th = 0 ->
  let r :=
    run (VoxelProof.main fuel programName false
           (voxelProofDir :: zrangeStr :: tileSizeStr :: outputDir :: more))
      env in
  fst r = Panic divide_by_zero
  /\ commands (snd r) = dataset_calls ++ [shutdown_call].
Proof.
  intros Hz Ht Hp Hs Hl Hb Hu Hserve H0 r.
  assert (C : stops command_of
                (VoxelProof.convert fuel voxelProofDir uuidStr zrange
                   (tw, th))
                env (Panics divide_by_zero)
                (dataset_calls ++ [shutdown_call])).
  { unfold VoxelProof.convert. cbn [fst snd VoxelProof.vol].
    eapply stops_defer_panic; [| apply yields_runCommand].
    eapply stops_change.
    - apply stops_bind_emit.
      eapply stops_bind; [apply yields_runCommand | intros _ _].
      eapply stops_bind; [apply yields_runCommand | intros _ _].
      unfold div32.
      destruct (tw =? 0)%Z eqn:E.
      + apply stops_first, stops_panic.
      + apply Z.eqb_neq in E. destruct H0 as [H0 | H0]; [contradiction |].
        apply stops_bind_ret. subst th. cbn [Z.eqb].
        apply stops_first, stops_panic.
    - reflexivity. }
  pose proof (main_to_init command_of env fuel programName voxelProofDir
                zrangeStr tileSizeStr outputDir more zrange (tw, th) _ _
                Hz Ht
                (launch_with command_of env fuel voxelProofDir outputDir
                   zrange (tw, th) before line after uuidStr _ _
                   Hp Hs Hl Hb Hu Hserve C)) as M.
  apply stops_run in M. exact M.
Qed.

Lemma zero_tile_size_panics_witness :
  let r :=
    run (VoxelProof.main 4 "convert" false (Sample.converter_args "0,350"))
      (env_point "0,350" (0, 350)) in
  fst r = Panic divide_by_zero
  /\ commands (snd r) = dataset_calls ++ [shutdown_call].
Proof.
  apply (zero_tile_size_panics (env_point "0,350" (0, 350)) 4 "convert"
           "/data/vp" "0,2"
           "0,350" "/data/out" [] (0, 2) 0 350
           ["Initializing datastore"] "Root node UUID: 28f1a9c4" []
           "28f1a9c4");
    try reflexivity.
  - constructor; [| constructor]. intros t H. discriminate H.
  - left. reflexivity.
Defined.

End ConverterErrors.

(** ** Edge cases of the passes *)

Section ConverterEdges.
Import Go Eff Spec Inv More.
Local Open Scope list_scope.

Lemma main_to_init_yields {O} (f : event -> list O) env fuel programName
    voxelProofDir zrangeStr tileSizeStr outputDir more zrange tileSize Q o :
  Point2d env zrangeStr = Ok zrange ->
  Point2d env tileSizeStr = Ok tileSize ->
  yields f (launch fuel voxelProofDir outputDir zrange tileSize) env Q o ->
  yields f
    (VoxelProof.main fuel programName false
       (voxelProofDir :: zrangeStr :: tileSizeStr :: outputDir :: more))
    env Q
    (flat_map f (converter_header voxelProofDir outputDir zrange tileSize)
     ++ o).
Proof.
  intros Hz Ht H. unfold VoxelProof.main.
  cbn [length Nat.ltb Nat.leb index nth_error].
  do 4 apply yields_bind_ret.
  unfold converter_header. cbn [flat_map]. rewrite <- !app_assoc.
  apply yields_bind_emit. apply yields_bind_asks. rewrite Hz.
  apply yields_bind_emit. apply yields_bind_asks. rewrite Ht.
  do 2 apply yields_bind_emit. cbn [app]. exact H.
Qed.

Lemma launch_with_yields {O} (f : event -> list O) env fuel voxelProofDir
    outputDir zrange tileSize before line after uuidStr Q o :
  StdoutPipe_err env (init_cmd outputDir) = None ->
  Start_err env (init_cmd outputDir) = None ->
  stdout_lines env (init_cmd outputDir) = before ++ line :: after ->
  Forall (fun l => forall t, ~ uuid_line l t) before ->
  uuid_line line uuidStr ->
  Start_err env (serve_cmd outputDir) = None ->
  yields f (VoxelProof.convert fuel voxelProofDir uuidStr zrange tileSize)
    env Q o ->
  yields f (launch fuel voxelProofDir outputDir zrange tileSize) env Q
    (flat_map f
       [StdoutPipe (init_cmd outputDir) None;
        Start (init_cmd outputDir) None;
        Printf ("Initialized datastore with root version %s." ++ nl)%string
          [VStr uuidStr];
        Start (serve_cmd outputDir) None;
        Println [VStr "Making sure DVID server has started..."];
        Sleep 3]
     ++ o).
Proof.
  intros Hp Hs Hl Hb Hu Hserve H. unfold launch.
  eapply yields_change.
  - eapply yields_bind.
    + eapply (initDatastore_yields f); eassumption.
    + intros u ->. apply yields_bind_emit. apply yields_bind_asks.
      fold (serve_cmd outputDir). rewrite Hserve.
      do 3 apply yields_bind_emit. exact H.
  - cbn [flat_map]. rewrite <- !app_assoc. reflexivity.
Qed.

(** The commands of the converter once the server runs, from the
    commands of its two passes. *)
Lemma convert_yields_with env fuel voxelProofDir uuidStr zrange tw th
    (pass : VoxelProof.kind -> list (list string)) :
  tw <> 0 -> th <> 0 ->
  (forall k,
      yields command_of
        (VoxelProof.addTiles fuel k voxelProofDir uuidStr zrange (tw, th)
           (quot32 700 tw) (quot32 700 th)
           (mul32 (quot32 700 tw) (quot32 700 th)))
        env (fun _ => True) (pass k)) ->
  yields command_of
    (VoxelProof.convert fuel voxelProofDir uuidStr zrange (tw, th))
    env (fun _ => True)
    (dataset_calls ++ pass VoxelProof.grayscale ++ pass VoxelProof.labels
     ++ [shutdown_call]).
Proof.
  intros Hwne Hhne Hpass.
  unfold VoxelProof.convert. cbn [fst snd VoxelProof.vol].
  rewrite !app_assoc.
  eapply yields_defer; [| apply yields_runCommand].
  rewrite <- !app_assoc.
  eapply yields_change.
  - apply yields_bind_emit.
    eapply yields_bind; [apply yields_runCommand | intros _ _].
    eapply yields_bind; [apply yields_runCommand | intros _ _].
    unfold div32.
    rewrite (proj2 (Z.eqb_neq tw 0) Hwne), (proj2 (Z.eqb_neq th 0) Hhne).
    do 2 apply yields_bind_ret.
    apply yields_bind_emit.
    eapply yields_bind; [apply Hpass | intros _ _]. apply Hpass.
  - reflexivity.
Qed.

(** X7: with an empty z range, the last slice before the first, the
    converter still starts the server, creates the two datasets and shuts
    the server down, and imports nothing. *)
Theorem empty_z_range_imports_nothing env fuel programName voxelProofDir
    zrangeStr tileSizeStr outputDir more zmin zmax tw th before line after
    uuidStr :
  Point2d env zrangeStr = Ok (zmin, zmax) ->
  Point2d env tileSizeStr = Ok (tw, th) ->
  StdoutPipe_err env (init_cmd outputDir) = None ->
  Start_err env (init_cmd outputDir) = None ->
  stdout_lines env (init_cmd outputDir) = before ++ line :: after ->
  Forall (fun l => forall t, ~ uuid_line l t) before ->
  uuid_line line uuidStr ->
  Start_err env (serve_cmd outputDir) = None ->
  tw <> 0 -> th <> 0 ->
  zmax < zmin ->
  (0 < fuel)%nat ->
  let r :=
    run (VoxelProof.main fuel programName false
           (voxelProofDir :: zrangeStr :: tileSizeStr :: outputDir :: more))
      env in
  fst r = Ret tt
  /\ commands (snd r) = dataset_calls ++ [shutdown_call].
Proof.
  intros Hz Ht Hp Hs Hl Hb Hu Hserve Hwne Hhne He Hf r.
  assert (P : forall k,
             yields command_of
               (VoxelProof.addTiles fuel k voxelProofDir uuidStr (zmin, zmax)
                  (tw, th) (quot32 700 tw) (quot32 700 th)
                  (mul32 (quot32 700 tw) (quot32 700 th)))
               env (fun _ => True) []).
  { intros k. unfold VoxelProof.addTiles. cbn [fst snd].
    destruct fuel as [| fuel]; [lia |]. cbn [for_].
    rewrite (proj2 (Z.leb_gt zmin zmax) He).
    apply yields_ret. exact I. }
  pose proof (main_to_init_yields command_of env fuel programName
                voxelProofDir zrangeStr tileSizeStr outputDir more
                (zmin, zmax) (tw, th) _ _ Hz Ht
                (launch_with_yields command_of env fuel voxelProofDir
                   outputDir (zmin, zmax) (tw, th) before line after uuidStr
                   _ _ Hp Hs Hl Hb Hu Hserve
                   (convert_yields_with env fuel voxelProofDir uuidStr
                      (zmin, zmax) tw th (fun _ => []) Hwne Hhne P))) as Y.
  apply yields_run in Y. destruct Y as ([] & Er & _ & Ec).
  split; [exact Er | exact Ec].
Qed.

Lemma empty_z_range_imports_nothing_witness :
  let r :=
    run (VoxelProof.main 1 "convert" false
           ["/data/vp"; "2,0"; "350,350"; "/data/out"])
      (env_point "2,0" (2, 0)) in
  fst r = Ret tt
  /\ commands (snd r) = dataset_calls ++ [shutdown_call].
Proof.
  apply (empty_z_range_imports_nothing (env_point "2,0" (2, 0)) 1 "convert"
           "/data/vp" "2,0" "350,350" "/data/out" [] 2 0 350 350
           ["Initializing datastore"] "Root node UUID: 28f1a9c4" []
           "28f1a9c4");
    try reflexivity; try lia.
  constructor; [| constructor]. intros t H. discriminate H.
Defined.

End ConverterEdges.

(** ** The progress lines of the converter *)

Section ConverterProgress.
Import Go Eff Spec Inv More.
Local Open Scope list_scope.








End ConverterProgress.

(** ** The root version the converter works with *)

Section RootVersion.
Import Go Eff Spec Inv More.
Local Open Scope list_scope.









End RootVersion.

(** ** The shutdown call of the converter *)

Section Shutdown.
Import Go Eff Spec Inv More.
Local Open Scope list_scope.









End Shutdown.
